(** * organize_downloads.py: a shallow embedding and its properties

    The development follows [src/organize_downloads.py]:
    - [Py] holds the few Python built-ins the script relies on
      ([str.lower], [str.rfind], list slices with negative bounds);
    - [path], [suffix], [stem], [parent], [joinpath] stand for the
      [pathlib] operations the script uses;
    - the file system is a finite map from paths to nodes, the action log
      is an optional list of lines, and every function that touches them
      threads a [world] explicitly;
    - Python exceptions are the [Raise] outcome of a call.

    Modelling conventions, stated once:
    - a path is the list of its components below the root, so [p / name]
      is [p ++ [name]]; names joined by the script (file names, category
      names, "LargeFiles", collision candidates) are single components;
    - strings are byte strings, [Py.lower] folds the ASCII letters;
    - the action log and the text log live outside the organised folder,
      the text log itself is not modelled;
    - the operating system may refuse a rename or a copy, the two calls
      the script guards with [try]; every other call fails only for a
      reason the file map shows;
    - the quotient [st_size / (1024 * 1024)] is an exact rational, which
      agrees with the Python float for every size below 2^53 bytes. *)

From Stdlib Require Import QArith Ascii.
From stdpp Require Import gmap strings list fin_maps pretty.

Close Scope Q_scope.

(** ** Python built-ins *)

Module Py.

(** [c.lower()] on one byte: 'A'..'Z' are shifted to 'a'..'z'. *)
Definition lower_char (c : ascii) : ascii :=
  let n := Ascii.nat_of_ascii c in
  if (65 <=? n)%nat && (n <=? 90)%nat then Ascii.ascii_of_nat (n + 32) else c.

(** [s.lower()] *)
Fixpoint lower (s : string) : string :=
  match s with
  | EmptyString => EmptyString
  | String c s' => String (lower_char c) (lower s')
  end.

(** [s.rfind(c)]: index of the last occurrence, [None] for Python's -1. *)
Fixpoint rfind (c : ascii) (s : string) : option nat :=
  match s with
  | EmptyString => None
  | String a s' =>
      match rfind c s' with
      | Some i => Some (S i)
      | None => if Ascii.eqb a c then Some 0%nat else None
      end
  end.

(** The bound of a slice, as CPython normalises it for a sequence of
    length [len]: a negative bound counts from the end, and every bound
    is clamped to [0 .. len]. *)
Definition slice_bound (len : nat) (i : Z) : nat :=
  if (i <? 0)%Z then Z.to_nat (Z.max 0 (i + Z.of_nat len))
  else Z.to_nat (Z.min i (Z.of_nat len)).

(** [l[i:]] *)
Definition slice_from {A} (i : Z) (l : list A) : list A :=
  drop (slice_bound (length l) i) l.

(** [l[:i]] *)
Definition slice_to {A} (i : Z) (l : list A) : list A :=
  take (slice_bound (length l) i) l.

End Py.

(** ** pathlib *)

Abbreviation path := (list string).

(** [p.name] *)
Definition name (p : path) : string := List.last p "".

(** [p.parent] *)
Definition parent (p : path) : path := removelast p.

(** [p / s] *)
Definition joinpath (p : path) (s : string) : path := p ++ [s].

Infix "</>" := joinpath (at level 40, left associativity).

(** The position at which [pathlib] cuts a name into stem and suffix:
    the last dot, unless it is the first or the last character. *)
Definition suffix_index (nm : string) : option nat :=
  match Py.rfind "."%char nm with
  | Some i =>
      if (0 <? i)%nat && (i <? String.length nm - 1)%nat then Some i else None
  | None => None
  end.

(** [p.suffix] *)
Definition suffix (p : path) : string :=
  let nm := name p in
  match suffix_index nm with
  | Some i => String.substring i (String.length nm - i) nm
  | None => ""
  end.

(** [p.stem] *)
Definition stem (p : path) : string :=
  let nm := name p in
  match suffix_index nm with
  | Some i => String.substring 0 i nm
  | None => nm
  end.

(** ** Utility functions of the script *)

(** [file_extension_lower] *)
Definition file_extension_lower (p : path) : string := Py.lower (suffix p).

(** The categories of the configuration: a Python dict, kept as the list of
    its items in insertion order, which is the order [items()] yields. *)
Definition categories_t := list (string * list string).

(** [find_category] *)
Fixpoint find_category (ext : string) (categories : categories_t) : string :=
  match categories with
  | [] => "Others"
  | (cat, exts) :: rest =>
      if bool_decide (ext ∈ map Py.lower exts) then cat
      else find_category ext rest
  end.

(** ** The world: file system, action log, clock *)

(** A file system entry: a regular file with its [st_size], or a folder. *)
Inductive node :=
  | File (st_size : Z)
  | Dir.

(** One line of the action log (actions.jsonl). [Entry] is a line written by
    [record_action]; [Malformed] is any other text, on which [json.loads] or
    the key lookups raise. *)
Inductive jline :=
  | Entry (timestamp : nat) (src dest : path)
  | Malformed (text : string).

(** [journal = None]: the action log file does not exist. *)
Record world := World {
  fs : gmap path node;
  journal : option (list jline);
  clock : nat
}.

Definition set_fs (w : world) (m : gmap path node) : world :=
  {| fs := m; journal := journal w; clock := clock w |}.

(** The records of the action log, none when the file is missing. *)
Definition journal_lines (w : world) : list jline := default [] (journal w).

(** What the operating system may refuse for reasons the file map does not
    show (another device, permissions, a full disk, a target folder that
    is gone):
    [rename_refused a b] makes [rename(a, b)] raise [OSError],
    [copy_refused a b] makes the copy of [a] to [b] raise it. *)
Record os_env := OsEnv {
  rename_refused : path → path → bool;
  copy_refused : path → path → bool
}.

(** ** Exceptions and the monad of the script *)

Inductive exn :=
  | FileNotFoundError
  | FileExistsError
  | NotADirectoryError
  | OSError
  | ValueError.

(** The result of a call: a value, a raised exception, or [Diverge] when a
    [while True] loop has used up the bound of its model. *)
Inductive outcome (A : Type) :=
  | Ok (a : A)
  | Raise (e : exn)
  | Diverge.

Arguments Ok {A} a.
Arguments Raise {A} e.
Arguments Diverge {A}.

Definition M (A : Type) : Type := world → outcome A * world.

#[global] Instance M_ret : MRet M := λ A a w, (Ok a, w).

#[global] Instance M_bind : MBind M := λ A B k m w,
  match m w with
  | (Ok a, w') => k a w'
  | (Raise e, w') => (Raise e, w')
  | (Diverge, w') => (Diverge, w')
  end.

Definition raise {A} (e : exn) : M A := λ w, (Raise e, w).

(** Lifts an operation on the file map; the map is replaced on success only. *)
Definition on_fs (f : gmap path node → outcome (gmap path node)) : M unit := λ w,
  match f (fs w) with
  | Ok m => (Ok tt, set_fs w m)
  | Raise e => (Raise e, w)
  | Diverge => (Diverge, w)
  end.

(** Lifts an observation of the file map. *)
Definition read_fs {A} (f : gmap path node → outcome A) : M A := λ w, (f (fs w), w).

(** [try: body except OSError: handler]; every exception the file system
    operations raise here is an [OSError] or one of its subclasses. *)
Definition try_except {A} (body handler : M A) : M A := λ w,
  match body w with
  | (Raise _, w') => handler w'
  | r => r
  end.

(** ** File system operations *)

(** [p.exists()] *)
Definition path_exists (m : gmap path node) (p : path) : bool :=
  match m !! p with Some _ => true | None => false end.

(** [p.is_file()] *)
Definition is_file (m : gmap path node) (p : path) : bool :=
  match m !! p with Some (File _) => true | _ => false end.

(** [p.stat().st_size]; folder sizes are not tracked, the script only
    stats what [is_file] accepted. *)
Definition stat_size (p : path) (m : gmap path node) : outcome Z :=
  match m !! p with
  | Some (File sz) => Ok sz
  | Some Dir => Ok 0%Z
  | None => Raise FileNotFoundError
  end.

(** [os.mkdir(p)] under [exist_ok=True]: an existing folder is accepted, a
    regular file in the way raises ([FileExistsError], or
    [NotADirectoryError] for an ancestor: both are [OSError]). *)
Definition mkdir1 (p : path) (m : gmap path node) : outcome (gmap path node) :=
  match m !! p with
  | Some Dir => Ok m
  | Some (File _) => Raise FileExistsError
  | None => Ok (<[p := Dir]> m)
  end.

(** The proper ancestors of [p] below the root, then [p], outermost first. *)
Definition prefixes (p : path) : list path :=
  (λ n, take n p) <$> seq 1 (length p).

Fixpoint mkdirs (ps : list path) (m : gmap path node) : outcome (gmap path node) :=
  match ps with
  | [] => Ok m
  | p :: ps' =>
      match mkdir1 p m with
      | Ok m' => mkdirs ps' m'
      | r => r
      end
  end.

(** [p.mkdir(parents=True, exist_ok=True)] *)
Definition mkdir_parents (p : path) (m : gmap path node) : outcome (gmap path node) :=
  mkdirs (prefixes p) m.

(** [os.replace(src, dst)]: the entry at [src] moves to [dst] as one unit
    (the paths the script renames are regular files). *)
Definition os_replace (env : os_env) (src dst : path) (m : gmap path node)
  : outcome (gmap path node) :=
  match m !! src with
  | None => Raise FileNotFoundError
  | Some n =>
      if rename_refused env src dst then Raise OSError
      else Ok (<[dst := n]> (delete src m))
  end.

(** [shutil.move(src, dst)] for a [dst] that does not exist: [os.rename]
    first, and when that raises, copy to [dst] and unlink [src]. *)
Definition shutil_move (env : os_env) (src dst : path) (m : gmap path node)
  : outcome (gmap path node) :=
  match os_replace env src dst m with
  | Ok m' => Ok m'
  | _ =>
      match m !! src with
      | None => Raise FileNotFoundError
      | Some n =>
          if copy_refused env src dst then Raise OSError
          else Ok (<[dst := n]> (delete src m))
      end
  end.

(** ** Collision handling *)

(** [parent / f"{stem} ({counter}){suffix}"] *)
Definition candidate (dest : path) (counter : nat) : path :=
  parent dest </> (stem dest +:+ " (" +:+ pretty counter +:+ ")" +:+ suffix dest).

(** The [while True] loop of [resolve_name_collision], run for at most
    [fuel] iterations. *)
Fixpoint collision_loop (fuel : nat) (m : gmap path node) (dest : path)
    (counter : nat) : outcome path :=
  match fuel with
  | O => Diverge
  | S fuel' =>
      if negb (path_exists m (candidate dest counter)) then Ok (candidate dest counter)
      else collision_loop fuel' m dest (S counter)
  end.

(** [resolve_name_collision]. The loop is given one iteration more than the
    file map has entries; [resolve_name_collision_cases] shows that this is
    always enough. *)
Definition resolve_name_collision (m : gmap path node) (dest : path) : outcome path :=
  if negb (path_exists m dest) then Ok dest
  else collision_loop (S (size m)) m dest 1.

(** [safe_move] (the debug message is not modelled) *)
Definition safe_move (env : os_env) (src dest : path) : M path :=
  on_fs (mkdir_parents (parent dest));;
  final_dest ← read_fs (λ m, resolve_name_collision m dest);
  try_except (on_fs (os_replace env src final_dest))
             (on_fs (shutil_move env src final_dest));;
  mret final_dest.

(** [record_action]: one line is appended to the action log, which is
    created when missing; the timestamp is read off the clock. *)
Definition record_action (src dest : path) : M unit := λ w,
  (Ok tt, {| fs := fs w;
             journal := Some (journal_lines w ++ [Entry (clock w) src dest]);
             clock := S (clock w) |}).

(** ** Core functions *)

(** The configuration after [load_config] and [expand_path]; the two log
    paths are left out, see the conventions at the top. *)
Record config := Config {
  DownloadsPath : path;
  Categories : categories_t;
  LargeFileThresholdMB : Q;
  Ignore : list string
}.

(** [p] is an entry of the folder [target]. *)
Definition is_child (target p : path) : bool :=
  bool_decide (p ≠ [] ∧ parent p = target).

(** [target.iterdir()], in the order of the file map; raises when [target]
    is not a folder. *)
Definition iterdir (target : path) (m : gmap path node) : outcome (list path) :=
  match m !! target with
  | Some Dir => Ok (filter (λ p, is_child target p = true) (map_to_list m).*1)
  | Some (File _) => Raise NotADirectoryError
  | None => Raise FileNotFoundError
  end.

(** [scan_folder] *)
Definition scan_folder (target : path) (ignore : list string) (m : gmap path node)
  : outcome (list path) :=
  match iterdir target m with
  | Ok ps =>
      Ok (filter (λ p, is_file m p = true ∧ name p ∉ ignore) ps)
  | r => r
  end.

(** [size_mb = file.stat().st_size / (1024 * 1024)] *)
Definition size_mb (st_size : Z) : Q := inject_Z st_size / inject_Z (1024 * 1024).

(** Lines 142-150 of the script: the destination of [file] in category
    [cat], with the "LargeFiles" segment when the threshold is set and
    reached. The size is only read when the threshold is truthy. *)
Definition destination (cfg : config) (cat : string) (file : path) : M path :=
  let dest_folder := DownloadsPath cfg </> cat in
  let dest_path := dest_folder </> name file in
  if negb (Qeq_bool (LargeFileThresholdMB cfg) 0) then
    st_size ← read_fs (stat_size file);
    if Qle_bool (LargeFileThresholdMB cfg) (size_mb st_size)
    then mret (dest_folder </> "LargeFiles" </> name file)
    else mret dest_path
  else mret dest_path.

(** The body of the [for] loop of [organize] up to the summary update: it
    yields the category of [file]. *)
Definition organize_file (env : os_env) (cfg : config) (categories : categories_t)
    (dry_run : bool) (file : path) : M string :=
  let ext := file_extension_lower file in
  let cat := find_category ext categories in
  dest_path ← destination cfg cat file;
  (if dry_run then mret tt
   else
     final ← safe_move env file dest_path;
     record_action file final);;
  mret cat.

(** [summary.setdefault(cat, 0); summary[cat] += 1] *)
Definition count_in (cat : string) (summary : gmap string nat) : gmap string nat :=
  <[cat := S (default 0%nat (summary !! cat))]> summary.

(** [preview_limit and idx + 1 >= preview_limit] *)
Definition limit_reached (preview_limit : option Z) (idx : nat) : bool :=
  match preview_limit with
  | Some n => negb (n =? 0)%Z && (n <=? Z.of_nat idx + 1)%Z
  | None => false
  end.

(** The [for idx, file in enumerate(files)] loop of [organize]. *)
Fixpoint organize_loop (env : os_env) (cfg : config) (categories : categories_t)
    (dry_run : bool) (preview_limit : option Z) (idx : nat) (files : list path)
    (summary : gmap string nat) : M (gmap string nat) :=
  match files with
  | [] => mret summary
  | file :: rest =>
      cat ← organize_file env cfg categories dry_run file;
      let summary' := count_in cat summary in
      if limit_reached preview_limit idx then mret summary'
      else organize_loop env cfg categories dry_run preview_limit (S idx) rest summary'
  end.

(** [{k: [e.lower() for e in v] for k, v in config["Categories"].items()}] *)
Definition lower_categories (cats : categories_t) : categories_t :=
  (λ kv, (kv.1, map Py.lower kv.2)) <$> cats.

(** [{k: 0 for k in list(categories.keys()) + ["Others"]}] *)
Definition empty_summary (categories : categories_t) : gmap string nat :=
  list_to_map ((λ k, (k, 0%nat)) <$> (categories.*1 ++ ["Others"])).

(** [organize] *)
Definition organize (env : os_env) (cfg : config) (dry_run : bool)
    (preview_limit : option Z) : M (gmap string nat) :=
  let downloads := DownloadsPath cfg in
  present ← read_fs (λ m, Ok (path_exists m downloads));
  if negb present then raise FileNotFoundError
  else
    let categories := lower_categories (Categories cfg) in
    files ← read_fs (scan_folder downloads (Ignore cfg));
    organize_loop env cfg categories dry_run preview_limit 0 files
      (empty_summary categories).

(** ** Undo *)

(** [entry = json.loads(line); src, dest = Path(entry["src"]), Path(entry["dest"])] *)
Definition parse_entry (line : jline) : outcome (path * path) :=
  match line with
  | Entry _ src dest => Ok (src, dest)
  | Malformed _ => Raise ValueError
  end.

(** The [for line in reversed(to_undo)] loop of [undo_actions], on the list
    already reversed; [except Exception] swallows a malformed line and a
    failed [os.replace] alike. *)
Fixpoint undo_loop (env : os_env) (lines : list jline) (m : gmap path node)
    (undone : nat) : nat * gmap path node :=
  match lines with
  | [] => (undone, m)
  | line :: rest =>
      match parse_entry line with
      | Ok (src, dest) =>
          if path_exists m dest && negb (path_exists m src) then
            match os_replace env dest src m with
            | Ok m' => undo_loop env rest m' (S undone)
            | _ => undo_loop env rest m undone
            end
          else undo_loop env rest m undone
      | _ => undo_loop env rest m undone
      end
  end.

(** [undo_actions] *)
Definition undo_actions (env : os_env) (count : Z) : M nat := λ w,
  match journal w with
  | None => (Ok 0%nat, w)
  | Some lines =>
      match lines with
      | [] => (Ok 0%nat, w)
      | _ =>
          let to_undo := Py.slice_from (- count) lines in
          let remaining := Py.slice_to (- count) lines in
          let '(undone, m) := undo_loop env (reverse to_undo) (fs w) 0 in
          (Ok undone, {| fs := m; journal := Some remaining; clock := clock w |})
      end
  end.

(** ** Command line *)

(** The parsed arguments that reach the core ([--config] and [--verbose]
    do not). *)
Record args := Args {
  arg_dry_run : bool;
  arg_undo : Z;
  arg_preview_limit : Z
}.

Inductive main_result :=
  | Undone (n : nat)
  | Summary (s : gmap string nat).

(** [main], after the configuration has been loaded. *)
Definition main (env : os_env) (cfg : config) (a : args) : M main_result :=
  if negb (arg_undo a =? 0)%Z then
    n ← undo_actions env (arg_undo a);
    mret (Undone n)
  else
    s ← organize env cfg (arg_dry_run a)
          (if (arg_preview_limit a =? 0)%Z then None else Some (arg_preview_limit a));
    mret (Summary s).

(** ** Notions used to state the properties *)


(** Both ways of moving [src] to [final] are refused by the operating system. *)
Definition move_refused (env : os_env) (src final : path) : bool :=
  rename_refused env src final && copy_refused env src final.

(** ** The undo pass, as a relation

    One pass over the selected records, most recent first. A record is
    reversed when its destination exists, its source does not, and the
    rename back is not refused; the entry then returns to the source path.
    Every other line is skipped. [undo_run lines m k m'] says that the pass
    over [lines] from the file map [m] reverses [k] records and ends in
    [m']. *)

Definition can_reverse (env : os_env) (m : gmap path node) (src dest : path)
    (n : node) : Prop :=
  m !! dest = Some n ∧ m !! src = None ∧ rename_refused env dest src = false.

Inductive undo_run (env : os_env) :
    list jline → gmap path node → nat → gmap path node → Prop :=
  | undo_run_nil m :
      undo_run env [] m 0 m
  | undo_run_reversed t src dest n rest m k m' :
      can_reverse env m src dest n →
      undo_run env rest (<[src := n]> (delete dest m)) k m' →
      undo_run env (Entry t src dest :: rest) m (S k) m'
  | undo_run_skipped line rest m k m' :
      (∀ t src dest n, line = Entry t src dest → ¬ can_reverse env m src dest n) →
      undo_run env rest m k m' →
      undo_run env (line :: rest) m k m'.



(** ** Concrete inputs

    The scenario of the specification: a Downloads folder holding a.jpg
    (1 MiB), b.png (600 MiB) and desktop.ini, one category "Images", a
    threshold of 500 MB, desktop.ini ignored, and no action log yet. *)

Definition downloads0 : path := ["home"; "u"; "Downloads"].

Definition fs0 : gmap path node :=
  list_to_map
    [ (["home"], Dir); (["home"; "u"], Dir); (downloads0, Dir);
      (downloads0 </> "a.jpg", File 1048576);
      (downloads0 </> "b.png", File 629145600);
      (downloads0 </> "desktop.ini", File 10) ].

Definition world0 : world := World fs0 None 0.

Definition config0 : config :=
  Config downloads0 [("Images", [".jpg"; ".png"])] (inject_Z 500) ["desktop.ini"].

(** An operating system that refuses nothing. *)
Definition env_ok : os_env := OsEnv (λ _ _, false) (λ _ _, false).

(** The folder [mount] is on another device than the rest of the tree:
    a rename across its boundary raises (EXDEV), copying works. *)
Definition env_cross_device (mount : path) : os_env :=
  OsEnv (λ a b, xorb (bool_decide (mount `prefix_of` a))
                     (bool_decide (mount `prefix_of` b)))
        (λ _ _, false).

(** The entry [locked] can be neither renamed nor copied (permission
    denied); every other move is allowed. *)
Definition env_locked (locked : path) : os_env :=
  OsEnv (λ a _, bool_decide (a = locked)) (λ a _, bool_decide (a = locked)).

(** The same folder, with Images/a.jpg already there. *)
Definition fs_taken : gmap path node :=
  <[downloads0 </> "Images" </> "a.jpg" := File 7]> (<[downloads0 </> "Images" := Dir]> fs0).

Definition world_taken : world := World fs_taken None 0.

(** The scenario folder with Images already there, as the mount point of
    another device. *)
Definition fs_mounted : gmap path node := <[downloads0 </> "Images" := Dir]> fs0.

Definition world_mounted : world := World fs_mounted None 0.



(** ** Notions used by the further properties *)

(** The number of files a summary counts. *)
Definition total (summary : gmap string nat) : nat :=
  map_fold (λ _ n acc, (n + acc)%nat) 0%nat summary.

(** The files the loop of [organize] gets to under [preview_limit]: all of
    them when the limit is [None] or 0, and otherwise the first
    [max 1 limit]. *)
Definition previewed (preview_limit : option Z) (files : list path) : list path :=
  match preview_limit with
  | Some n => if (n =? 0)%Z then files else take (Z.to_nat (Z.max 1 n)) files
  | None => files
  end.

(** The summary after counting each of [files] in its category, starting
    from [summary]. *)
Definition tally (categories : categories_t) (files : list path)
    (summary : gmap string nat) : gmap string nat :=
  foldl (λ s f, count_in (find_category (file_extension_lower f) categories) s)
        summary files.

(** A world without any file system entry. *)
Definition world_empty : world := World ∅ None 0.

(** The scenario folder with a regular file named like the category
    folder. *)
Definition fs_blocked : gmap path node := <[downloads0 </> "Images" := File 5]> fs0.

Definition world_blocked : world := World fs_blocked None 0.

(** The scenario after a complete run, with three records in the log. *)
Definition world_three : world :=
  World (<[downloads0 </> "Images" </> "a.jpg" := File 1]>
           (<[downloads0 </> "Images" </> "b.jpg" := File 2]>
              (<[downloads0 </> "Images" </> "c.jpg" := File 3]>
                 (<[downloads0 </> "Images" := Dir]> (<[downloads0 := Dir]> ∅)))))
        (Some [ Entry 0 (downloads0 </> "a.jpg") (downloads0 </> "Images" </> "a.jpg");
                Entry 1 (downloads0 </> "b.jpg") (downloads0 </> "Images" </> "b.jpg");
                Entry 2 (downloads0 </> "c.jpg") (downloads0 </> "Images" </> "c.jpg") ])
        3.




(** A target folder that holds A.jpg and a regular file named "Images",
    like the category. *)
Definition world_namesake : world :=
  World (<[downloads0 </> "A.jpg" := File 4]>
           (<[downloads0 </> "Images" := File 5]> (<[downloads0 := Dir]> ∅)))
        None 0.

(** * Properties *)

(** ** Sanity checks of the embedding *)

Example lower_JPG : Py.lower ".JPG" = ".jpg".
Proof. reflexivity. Qed.

Example suffix_tar_gz : suffix ["home"; "u"; "a.tar.gz"] = ".gz".
Proof. reflexivity. Qed.

Example stem_tar_gz : stem ["home"; "u"; "a.tar.gz"] = "a.tar".
Proof. reflexivity. Qed.

Example suffix_hidden : suffix ["home"; ".bashrc"] = "" ∧ stem ["home"; ".bashrc"] = ".bashrc".
Proof. split; reflexivity. Qed.

Example suffix_trailing_dot : suffix ["home"; "a."] = "".
Proof. reflexivity. Qed.

Example find_first_wins :
  find_category ".jpg" [("Images", [".jpg"; ".png"]); ("Photos", [".JPG"])] = "Images".
Proof. reflexivity. Qed.

(** The scenario of the specification, run on the embedding. *)
Example scenario_organize :
  let r := organize env_ok config0 false None world0 in
  match r.1 with
  | Ok s => s !! "Images" = Some 2%nat ∧ s !! "Others" = Some 0%nat
  | _ => False
  end
  ∧ fs r.2 !! (downloads0 </> "Images" </> "a.jpg") = Some (File 1048576)
  ∧ fs r.2 !! (downloads0 </> "Images" </> "LargeFiles" </> "b.png") = Some (File 629145600)
  ∧ fs r.2 !! (downloads0 </> "desktop.ini") = Some (File 10)
  ∧ journal r.2
    = Some [ Entry 0 (downloads0 </> "a.jpg") (downloads0 </> "Images" </> "a.jpg");
             Entry 1 (downloads0 </> "b.png")
               (downloads0 </> "Images" </> "LargeFiles" </> "b.png") ].
Proof. vm_compute. done. Qed.

Example scenario_undo_two :
  let r := undo_actions env_ok 2 (organize env_ok config0 false None world0).2 in
  r.1 = Ok 2%nat
  ∧ fs r.2 !! (downloads0 </> "a.jpg") = Some (File 1048576)
  ∧ fs r.2 !! (downloads0 </> "b.png") = Some (File 629145600)
  ∧ journal r.2 = Some [].
Proof. vm_compute. done. Qed.

Example scenario_dry_run :
  let r := organize env_ok config0 true None world0 in
  match r.1 with
  | Ok s => s !! "Images" = Some 2%nat ∧ s !! "Others" = Some 0%nat
  | _ => False
  end
  ∧ r.2 = world0.
Proof. vm_compute. done. Qed.

Example collision_second_candidate :
  resolve_name_collision
    (<[downloads0 </> "Images" </> "a (1).jpg" := File 3]> fs_taken)
    (downloads0 </> "Images" </> "a.jpg")
  = Ok (downloads0 </> "Images" </> "a (2).jpg").
Proof. vm_compute. reflexivity. Qed.

(** ** Classifier *)

Section Classifier.

Lemma lower_char_idemp c : Py.lower_char (Py.lower_char c) = Py.lower_char c.
Proof. destruct c as [[] [] [] [] [] [] [] []]; reflexivity. Qed.

Lemma lower_idemp s : Py.lower (Py.lower s) = Py.lower s.
Proof. induction s as [|c s IH]; simpl; [done|]. by rewrite lower_char_idemp, IH. Qed.




End Classifier.


(** ** File system operations *)

Section FileSystem.

Implicit Types (m : gmap path node) (p : path).

Lemma path_exists_true m p : path_exists m p = true ↔ is_Some (m !! p).
Proof.
  unfold path_exists. destruct (m !! p) eqn:E; split; intros H; eauto; try done.
Qed.

Lemma path_exists_false m p : path_exists m p = false ↔ m !! p = None.
Proof. unfold path_exists. by destruct (m !! p). Qed.

Lemma elem_of_prefixes p q : q ∈ prefixes p → (1 ≤ length q ≤ length p)%nat.
Proof.
  unfold prefixes. intros [n [-> Hn%elem_of_seq]]%list_elem_of_fmap.
  rewrite length_take. lia.
Qed.

(** [mkdirs] only adds folders, at the listed paths, where nothing was. *)
Lemma mkdirs_ok ps m m' :
  mkdirs ps m = Ok m' →
  ∀ p, m' !! p = m !! p ∨ (m !! p = None ∧ m' !! p = Some Dir ∧ p ∈ ps).
Proof.
  revert m. induction ps as [|q ps IH]; intros m H p; simpl in H.
  - injection H as <-. by left.
  - unfold mkdir1 in H. destruct (m !! q) as [[sz|]|] eqn:Hq; [done| |].
    + destruct (IH _ H p) as [?|(?&?&?)]; [by left|].
      right. split_and!; [done..|]. by right.
    + destruct (IH _ H p) as [Hp|(Hp&?&?)].
      * rewrite Hp. destruct (decide (q = p)) as [->|Hne].
        -- right. rewrite lookup_insert_eq. split_and!; [done..|]. by left.
        -- left. by rewrite lookup_insert_ne.
      * destruct (decide (q = p)) as [->|Hne].
        -- by rewrite lookup_insert_eq in Hp.
        -- rewrite lookup_insert_ne in Hp by done.
           right. split_and!; [done..|]. by right.
Qed.

Lemma mkdirs_not_diverge ps m : mkdirs ps m ≠ Diverge.
Proof.
  revert m. induction ps as [|q ps IH]; intros m; simpl; [done|].
  unfold mkdir1. destruct (m !! q) as [[sz|]|]; [done|apply IH..].
Qed.

Lemma mkdir_parents_ok d m m' :
  mkdir_parents d m = Ok m' →
  ∀ p, m' !! p = m !! p
       ∨ (m !! p = None ∧ m' !! p = Some Dir ∧ (1 ≤ length p ≤ length d)%nat).
Proof.
  intros H p. destruct (mkdirs_ok _ _ _ H p) as [?|(?&?&?%elem_of_prefixes)]; auto.
Qed.

(** Paths strictly longer than [d] are not touched by [d.mkdir(...)]. *)
Lemma mkdir_parents_deeper d m m' p :
  mkdir_parents d m = Ok m' → (length d < length p)%nat → m' !! p = m !! p.
Proof. intros H Hlen. destruct (mkdir_parents_ok _ _ _ H p) as [?|(?&?&?)]; [done|lia]. Qed.

Lemma mkdir_parents_keeps d m m' p n :
  mkdir_parents d m = Ok m' → m !! p = Some n → m' !! p = Some n.
Proof. intros H Hp. destruct (mkdir_parents_ok _ _ _ H p) as [?|(?&?&?)]; congruence. Qed.

Lemma length_parent p : p ≠ [] → length p = S (length (parent p)).
Proof.
  intros Hp. unfold parent. destruct (exists_last Hp) as (q & x & ->).
  rewrite removelast_last, length_app. simpl. lia.
Qed.

(** Neither [dest] nor any entry of [dest.parent] is created by
    [dest.parent.mkdir(...)]. *)
Lemma mkdir_parents_sibling dest m m' s :
  mkdir_parents (parent dest) m = Ok m' → m' !! (parent dest </> s) = m !! (parent dest </> s).
Proof.
  intros H. eapply mkdir_parents_deeper; [done|].
  unfold joinpath. rewrite length_app. simpl. lia.
Qed.

Lemma mkdir_parents_dest dest m m' :
  mkdir_parents (parent dest) m = Ok m' → m' !! dest = m !! dest.
Proof.
  intros H. destruct (decide (dest = [])) as [->|Hne].
  - unfold mkdir_parents in H. simpl in H. by injection H as <-.
  - eapply mkdir_parents_deeper; [done|]. rewrite (length_parent dest) by done. lia.
Qed.

End FileSystem.

(** ** Collision handling *)

Section Collision.

Lemma string_app_length (s t : string) :
  String.length (s +:+ t) = (String.length s + String.length t)%nat.
Proof. induction s as [|c s IH]; simpl; [done|]. by rewrite IH. Qed.

Lemma string_app_inv_tail (s1 s2 t : string) : s1 +:+ t = s2 +:+ t → s1 = s2.
Proof.
  revert s2. induction s1 as [|c s1 IH]; intros [|d s2] H; simpl in H.
  - done.
  - apply (f_equal String.length) in H.
    rewrite !string_app_length in H. simpl in H. rewrite ?string_app_length in H. lia.
  - apply (f_equal String.length) in H.
    rewrite !string_app_length in H. simpl in H. rewrite ?string_app_length in H. lia.
  - injection H as -> H. f_equal. by apply IH.
Qed.

#[local] Instance candidate_inj dest : Inj (=) (=) (candidate dest).
Proof.
  intros n k H. unfold candidate, joinpath in H.
  apply app_inv_head in H. injection H as H.
  do 2 apply String.app_inj in H.
  apply string_app_inv_tail in H. by apply (inj pretty) in H.
Qed.

Lemma parent_joinpath p s : parent (p </> s) = p.
Proof. unfold parent, joinpath. apply removelast_last. Qed.


Lemma name_joinpath p s : name (p </> s) = s.
Proof. unfold name, joinpath. apply last_last. Qed.

Lemma parent_candidate dest n : parent (candidate dest n) = parent dest.
Proof. apply parent_joinpath. Qed.

(** What the bounded loop returns, and what it has seen when it gives up. *)
Lemma collision_loop_spec fuel m dest c :
  match collision_loop fuel m dest c with
  | Ok p =>
      ∃ n, (c ≤ n < c + fuel)%nat ∧ p = candidate dest n
           ∧ path_exists m p = false
           ∧ ∀ k, (c ≤ k < n)%nat → path_exists m (candidate dest k) = true
  | Raise _ => False
  | Diverge => ∀ k, (c ≤ k < c + fuel)%nat → path_exists m (candidate dest k) = true
  end.
Proof.
  revert c. induction fuel as [|fuel IH]; intros c; simpl.
  - intros k Hk. lia.
  - destruct (path_exists m (candidate dest c)) eqn:Hc; simpl.
    + specialize (IH (S c)).
      destruct (collision_loop fuel m dest (S c)) as [p|e|].
      * destruct IH as (n & Hn & -> & Hfree & Hbelow).
        exists n. repeat split; [lia..|done|].
        intros k Hk. destruct (decide (k = c)) as [->|]; [done|]. apply Hbelow. lia.
      * done.
      * intros k Hk. destruct (decide (k = c)) as [->|]; [done|]. apply IH. lia.
    + exists c. repeat split; [lia..|done|]. intros k Hk. lia.
Qed.

Lemma path_exists_dom (m : gmap path node) p : path_exists m p = true ↔ p ∈ dom m.
Proof.
  unfold path_exists. rewrite elem_of_dom.
  destruct (m !! p); split; intros H; try done; by destruct H.
Qed.

(** More candidates than entries cannot all exist. *)
Lemma candidates_not_all_taken (m : gmap path node) dest c :
  ¬ ∀ k, (c ≤ k < c + S (size m))%nat → path_exists m (candidate dest k) = true.
Proof.
  intros Hall.
  set (cs := candidate dest <$> seq c (S (size m))).
  assert (NoDup cs) as Hnd by (apply (NoDup_fmap_2 _), NoDup_seq).
  assert (list_to_set cs ⊆ dom m) as Hsub.
  { intros p [k [-> Hk%elem_of_seq]]%elem_of_list_to_set%list_elem_of_fmap.
    apply path_exists_dom, Hall. lia. }
  apply subseteq_size in Hsub.
  rewrite size_list_to_set, size_dom in Hsub by done.
  unfold cs in Hsub. rewrite length_fmap, length_seq in Hsub. lia.
Qed.


Lemma resolve_name_collision_cases (m : gmap path node) (dest : path) :
  ∃ p, resolve_name_collision m dest = Ok p
       ∧ path_exists m p = false
       ∧ (path_exists m dest = false → p = dest)
       ∧ (path_exists m dest = true →
          ∃ n, (1 ≤ n)%nat ∧ p = candidate dest n
               ∧ ∀ k, (1 ≤ k < n)%nat → path_exists m (candidate dest k) = true).
Proof.
  unfold resolve_name_collision.
  destruct (path_exists m dest) eqn:Hd; cbn [negb].
  - pose proof (collision_loop_spec (S (size m)) m dest 1) as H.
    destruct (collision_loop (S (size m)) m dest 1) as [p|e|].
    + destruct H as (n & Hn & -> & Hfree & Hbelow).
      exists (candidate dest n). split; [done|]. split; [done|]. split; [done|].
      intros _. exists n. split; [lia|]. by split.
    + done.
    + by apply candidates_not_all_taken in H.
  - exists dest. split; [done|]. split; [done|]. by split.
Qed.

End Collision.

(** ** The mover *)

Section Mover.

Context (env : os_env).
Implicit Types (m : gmap path node) (p src dest final : path) (w : world).

(** The three ways [safe_move] can end. *)
Lemma safe_move_cases src dest w :
  (∃ e, mkdir_parents (parent dest) (fs w) = Raise e
        ∧ safe_move env src dest w = (Raise e, w))
  ∨ (∃ m1 final,
        mkdir_parents (parent dest) (fs w) = Ok m1
        ∧ resolve_name_collision m1 dest = Ok final
        ∧ ((∃ n, m1 !! src = Some n ∧ move_refused env src final = false
                 ∧ safe_move env src dest w
                   = (Ok final, set_fs w (<[final := n]> (delete src m1))))
           ∨ (∃ e, (m1 !! src = None ∨ move_refused env src final = true)
                   ∧ safe_move env src dest w = (Raise e, set_fs w m1)))).
Proof.
  unfold safe_move, move_refused, mbind, M_bind, mret, M_ret, on_fs, read_fs, try_except.
  destruct (mkdir_parents (parent dest) (fs w)) as [m1|e|] eqn:Hmk.
  - right. exists m1. unfold set_fs; simpl.
    destruct (resolve_name_collision_cases m1 dest) as (final & Hres & _).
    rewrite Hres. exists final. split_and!; [done..|].
    unfold shutil_move, os_replace.
    destruct (m1 !! src) as [n|] eqn:Hsrc; simpl; rewrite ?Hsrc.
    + destruct (rename_refused env src final) eqn:Hr; simpl; rewrite ?Hr.
      * destruct (copy_refused env src final) eqn:Hc; simpl; rewrite ?Hsrc, ?Hc; simpl.
        -- right. exists OSError. split; [by right|]. done.
        -- left. exists n. split_and!; done.
      * left. exists n. split_and!; done.
    + right. exists FileNotFoundError. split; [by left|done].
  - left. by exists e.
  - by apply mkdirs_not_diverge in Hmk.
Qed.



Lemma safe_move_ok src dest w final w' :
  safe_move env src dest w = (Ok final, w') →
  ∃ m1 n,
    mkdir_parents (parent dest) (fs w) = Ok m1
    ∧ resolve_name_collision m1 dest = Ok final
    ∧ m1 !! src = Some n
    ∧ move_refused env src final = false
    ∧ w' = set_fs w (<[final := n]> (delete src m1)).
Proof.
  intros H.
  destruct (safe_move_cases src dest w)
    as [(e & _ & He) | (m1 & fin & Hmk & Hres & [(n & Hn & Hr & Hs) | (e & _ & Hs)])];
    rewrite H in *; simplify_eq.
  by exists m1, n.
Qed.

Lemma safe_move_not_diverge src dest w w' : safe_move env src dest w ≠ (Diverge, w').
Proof.
  intros H.
  destruct (safe_move_cases src dest w)
    as [(e & _ & He) | (m1 & fin & Hmk & Hres & [(n & Hn & Hr & Hs) | (e & _ & Hs)])];
    rewrite H in *; simplify_eq.
Qed.

(** A failed [safe_move] leaves the action log, the clock and every entry
    of the file map as they were; it may have created folders. *)
Lemma safe_move_raise src dest w e w' :
  safe_move env src dest w = (Raise e, w') →
  journal w' = journal w ∧ clock w' = clock w
  ∧ ∀ p n, fs w !! p = Some n → fs w' !! p = Some n.
Proof.
  intros H.
  destruct (safe_move_cases src dest w)
    as [(e' & _ & He) | (m1 & fin & Hmk & Hres & [(n & Hn & Hr & Hs) | (e' & _ & Hs)])];
    rewrite H in *; simplify_eq; simpl.
  - done.
  - split_and!; [done..|]. intros p n Hp. by eapply mkdir_parents_keeps.
Qed.


(** How the result of [safe_move] relates to the file map it started from. *)
Lemma safe_move_final src dest w final w' :
  safe_move env src dest w = (Ok final, w') →
  fs w !! final = None
  ∧ (path_exists (fs w) dest = false → final = dest)
  ∧ (path_exists (fs w) dest = true →
     final ≠ dest
     ∧ ∃ k, (1 ≤ k)%nat ∧ final = candidate dest k
            ∧ ∀ j, (1 ≤ j < k)%nat → path_exists (fs w) (candidate dest j) = true).
Proof.
  intros (m1 & n & Hmk & Hres & Hn & Hr & ->)%safe_move_ok.
  destruct (resolve_name_collision_cases m1 dest) as (p & Hp & Hfree & Hsame & Hnext).
  rewrite Hres in Hp. injection Hp as <-.
  assert (path_exists m1 dest = path_exists (fs w) dest) as Hdest.
  { unfold path_exists. by rewrite (mkdir_parents_dest _ _ _ Hmk). }
  assert (∀ j, path_exists m1 (candidate dest j) = path_exists (fs w) (candidate dest j)) as Hcand.
  { intros j. unfold path_exists, candidate. by rewrite (mkdir_parents_sibling _ _ _ _ Hmk). }
  rewrite Hdest in Hsame, Hnext.
  assert (fs w !! final = None) as Hfinal.
  { apply path_exists_false in Hfree.
    destruct (fs w !! final) as [x|] eqn:Hx; [|done].
    apply (mkdir_parents_keeps _ _ _ _ _ Hmk) in Hx. congruence. }
  split_and!; [done..|].
  intros Hd. destruct (Hnext Hd) as (k & Hk & -> & Hbelow).
  split.
  - intros Heq. rewrite Heq in Hfinal. apply path_exists_false in Hfinal. congruence.
  - exists k. split_and!; [done..|]. intros j Hj. rewrite <- Hcand. by apply Hbelow.
Qed.

(** After a successful [safe_move] of an existing entry, the entry is at
    the returned path and no longer at [src]. *)
Lemma safe_move_moved src dest w final w' n :
  fs w !! src = Some n →
  safe_move env src dest w = (Ok final, w') →
  fs w' !! final = Some n ∧ fs w' !! src = None
  ∧ journal w' = journal w ∧ clock w' = clock w.
Proof.
  intros Hsrc (m1 & n' & Hmk & Hres & Hn & Hr & ->)%safe_move_ok. simpl.
  apply (mkdir_parents_keeps _ _ _ _ _ Hmk) in Hsrc.
  assert (n' = n) as -> by congruence.
  destruct (resolve_name_collision_cases m1 dest) as (p & Hp & Hfree & _).
  rewrite Hres in Hp. injection Hp as <-. apply path_exists_false in Hfree.
  assert (final ≠ src) as Hne by (intros ->; congruence).
  split_and!; [|by rewrite lookup_insert_ne, lookup_delete_eq|done..].
  apply lookup_insert_eq.
Qed.


End Mover.

(** ** The loop of [organize] *)

Section Organize.

Context (env : os_env) (cfg : config).
Implicit Types (m : gmap path node) (p file dest final : path) (w : world).
Implicit Types (cats : categories_t) (summary : gmap string nat).

(** Computing the destination reads the file map and changes nothing. *)
Lemma destination_cases cat file w :
  (∃ dest, destination cfg cat file w = (Ok dest, w))
  ∨ (∃ e, destination cfg cat file w = (Raise e, w)).
Proof.
  unfold destination, mbind, M_bind, mret, M_ret, read_fs, stat_size.
  destruct (negb _); [|by left; eexists].
  destruct (fs w !! file) as [[sz|]|]; [..|by right; eexists];
    destruct (Qle_bool _ _); by left; eexists.
Qed.

Lemma organize_file_dry_run cats file w :
  (organize_file env cfg cats true file w).2 = w.
Proof.
  unfold organize_file, mbind, M_bind, mret, M_ret.
  by destruct (destination_cases (find_category (file_extension_lower file) cats) file w)
    as [[dest ->] | [e ->]].
Qed.

Lemma organize_loop_dry_run cats limit files idx summary w :
  (organize_loop env cfg cats true limit idx files summary w).2 = w.
Proof.
  revert idx summary. induction files as [|file rest IH]; intros idx summary; simpl; [done|].
  unfold mbind, M_bind.
  pose proof (organize_file_dry_run cats file w) as Hw.
  destruct (organize_file env cfg cats true file w) as [[cat|e|] w1]; simpl in Hw; subst w1;
    [|done..].
  destruct (limit_reached limit idx); [done|]. apply IH.
Qed.

Lemma organize_dry_run limit w : (organize env cfg true limit w).2 = w.
Proof.
  unfold organize, mbind, M_bind, read_fs, raise.
  destruct (negb _); [done|].
  destruct (scan_folder _ _ _); [|done..].
  apply organize_loop_dry_run.
Qed.

(** The non-dry-run step, case by case. *)
Lemma organize_file_cases cats file w :
  let cat := find_category (file_extension_lower file) cats in
  (∃ e, destination cfg cat file w = (Raise e, w)
        ∧ organize_file env cfg cats false file w = (Raise e, w))
  ∨ (∃ dest, destination cfg cat file w = (Ok dest, w)
       ∧ ((∃ e w1, safe_move env file dest w = (Raise e, w1)
                   ∧ organize_file env cfg cats false file w = (Raise e, w1))
          ∨ (∃ final w1, safe_move env file dest w = (Ok final, w1)
                   ∧ organize_file env cfg cats false file w
                     = (Ok cat, (record_action file final w1).2)))).
Proof.
  intros cat. unfold organize_file, mbind, M_bind, mret, M_ret. fold cat.
  destruct (destination_cases cat file w) as [[dest Hd] | [e He]].
  - right. exists dest. split; [done|]. rewrite Hd.
    destruct (safe_move env file dest w) as [[final|e|] w1] eqn:Hs.
    + right. by exists final, w1.
    + left. by exists e, w1.
    + by apply safe_move_not_diverge in Hs.
  - left. exists e. by rewrite He.
Qed.

(** A successful non-dry-run step is a successful [safe_move] to the
    computed destination followed by [record_action]. *)
Lemma organize_file_ok cats file w cat w' :
  organize_file env cfg cats false file w = (Ok cat, w') →
  cat = find_category (file_extension_lower file) cats
  ∧ ∃ dest final w1,
      destination cfg cat file w = (Ok dest, w)
      ∧ safe_move env file dest w = (Ok final, w1)
      ∧ w' = (record_action file final w1).2.
Proof.
  intros Hrun.
  destruct (organize_file_cases cats file w)
    as [(e & _ & He) | (dest & Hd & [(e & w1 & Hs & He) | (final & w1 & Hs & He)])];
    rewrite Hrun in He; simplify_eq.
  split; [done|]. by exists dest, final, w1.
Qed.

End Organize.


(** ** The large-file rule *)

Section LargeFiles.

Context (cfg : config).



End LargeFiles.



(** ** The action log over a whole run *)

Section Journal.

Context (env : os_env) (cfg : config).
Implicit Types (m : gmap path node) (p file dest final : path) (w : world).
Implicit Types (cats : categories_t) (summary : gmap string nat).

(** [safe_move], however it ends, keeps every entry other than [src]. *)
Lemma safe_move_keeps src dest w r w' p n :
  safe_move env src dest w = (r, w') →
  p ≠ src → fs w !! p = Some n → fs w' !! p = Some n.
Proof.
  intros Hs Hne Hp.
  destruct (safe_move_cases env src dest w)
    as [(e & _ & He) | (m1 & fin & Hmk & Hres & [(x & Hx & Hr & Hok) | (e & _ & He)])];
    rewrite Hs in *; simplify_eq; simpl; [done| |by eapply mkdir_parents_keeps].
  apply (mkdir_parents_keeps _ _ _ _ _ Hmk) in Hp.
  destruct (resolve_name_collision_cases m1 dest) as (q & Hq & Hfree%path_exists_false & _).
  rewrite Hres in Hq. injection Hq as <-.
  assert (fin ≠ p) by (intros ->; congruence).
  by rewrite lookup_insert_ne, lookup_delete_ne.
Qed.



Lemma organize_file_keeps cats dry_run file w r w' p n :
  organize_file env cfg cats dry_run file w = (r, w') →
  p ≠ file → fs w !! p = Some n → fs w' !! p = Some n.
Proof.
  intros Hrun Hne Hp. destruct dry_run.
  - pose proof (organize_file_dry_run env cfg cats file w) as H.
    rewrite Hrun in H. simpl in H. by subst.
  - destruct (organize_file_cases env cfg cats file w)
      as [(e & _ & He) | (dest & _ & [(e & w1 & Hs & He) | (final & w1 & Hs & He)])];
      rewrite Hrun in He; simplify_eq; simpl.
    + done.
    + by apply (safe_move_keeps _ _ _ _ _ _ _ Hs).
    + by apply (safe_move_keeps _ _ _ _ _ _ _ Hs).
Qed.

Lemma organize_loop_keeps cats dry_run limit files idx summary w r w' p n :
  organize_loop env cfg cats dry_run limit idx files summary w = (r, w') →
  p ∉ files → fs w !! p = Some n → fs w' !! p = Some n.
Proof.
  revert idx summary w. induction files as [|file rest IH]; intros idx summary w Hrun Hp Hn.
  - simpl in Hrun. unfold mret, M_ret in Hrun. by simplify_eq.
  - simpl in Hrun. unfold mbind, M_bind in Hrun.
    apply not_elem_of_cons in Hp as [Hne Hrest].
    destruct (organize_file env cfg cats dry_run file w) as [[cat|e|] w1] eqn:Hstep;
      pose proof (organize_file_keeps _ _ _ _ _ _ _ _ Hstep Hne Hn) as Hn1;
      [|by simplify_eq..].
    destruct (limit_reached limit idx); [unfold mret, M_ret in Hrun; by simplify_eq|].
    by eapply IH.
Qed.




End Journal.

(** ** Undo *)

Section Undo.

Context (env : os_env).
Implicit Types (m : gmap path node) (lines : list jline) (w : world).

(** [lines[-n:]] and [lines[:-n]] for a positive [n]. *)
Lemma slice_from_neg {A} (n : Z) (l : list A) :
  (1 ≤ n)%Z →
  Py.slice_from (- n) l = drop (length l - Nat.min (Z.to_nat n) (length l)) l.
Proof.
  intros Hn. unfold Py.slice_from, Py.slice_bound.
  destruct (Z.ltb_spec (- n) 0); [|lia]. f_equal. lia.
Qed.

Lemma slice_to_neg {A} (n : Z) (l : list A) :
  (1 ≤ n)%Z →
  Py.slice_to (- n) l = take (length l - Nat.min (Z.to_nat n) (length l)) l.
Proof.
  intros Hn. unfold Py.slice_to, Py.slice_bound.
  destruct (Z.ltb_spec (- n) 0); [|lia]. f_equal. lia.
Qed.

(** [lines[-0:]] is the whole list and [lines[:-0]] is empty. *)
Lemma slice_from_zero {A} (l : list A) : Py.slice_from (- 0) l = l.
Proof. unfold Py.slice_from, Py.slice_bound. simpl. by rewrite Z.min_l, drop_0 by lia. Qed.

Lemma slice_to_zero {A} (l : list A) : Py.slice_to (- 0) l = [].
Proof. unfold Py.slice_to, Py.slice_bound. simpl. by rewrite Z.min_l by lia. Qed.

(** The loop of the script performs a pass in the sense of [undo_run]. *)
Lemma undo_loop_run lines m acc :
  ∃ k m', undo_loop env lines m acc = ((acc + k)%nat, m') ∧ undo_run env lines m k m'.
Proof.
  revert m acc. induction lines as [|line rest IH]; intros m acc; simpl.
  - exists 0%nat, m. split; [by rewrite Nat.add_0_r | constructor].
  - destruct line as [t src dest | text]; simpl.
    + unfold path_exists, os_replace.
      destruct (m !! dest) as [n|] eqn:Hd; simpl.
      * destruct (m !! src) as [x|] eqn:Hs; simpl.
        -- destruct (IH m acc) as (k & m' & Hrun & Hspec).
           exists k, m'. split; [done|]. apply undo_run_skipped; [|done].
           intros ???? [= -> -> ->] (? & ? & ?). congruence.
        -- destruct (rename_refused env dest src) eqn:Hr.
           ++ destruct (IH m acc) as (k & m' & Hrun & Hspec).
              exists k, m'. split; [done|]. apply undo_run_skipped; [|done].
              intros ???? [= -> -> ->] (? & ? & ?). congruence.
           ++ destruct (IH (<[src := n]> (delete dest m)) (S acc)) as (k & m' & Hrun & Hspec).
              exists (S k), m'. split; [by rewrite Hrun; f_equal; lia|].
              by eapply undo_run_reversed.
      * destruct (IH m acc) as (k & m' & Hrun & Hspec).
        exists k, m'. split; [done|]. apply undo_run_skipped; [|done].
        intros ???? [= -> -> ->] (? & ? & ?). congruence.
    + destruct (IH m acc) as (k & m' & Hrun & Hspec).
      exists k, m'. split; [done|]. apply undo_run_skipped; [|done]. intros; discriminate.
Qed.

(** A pass is determined by the lines and the file map it starts from. *)
Lemma undo_run_functional lines m k1 m1 k2 m2 :
  undo_run env lines m k1 m1 → undo_run env lines m k2 m2 → k1 = k2 ∧ m1 = m2.
Proof.
  intros H1. revert k2 m2.
  induction H1 as [m | t src dest n rest m k m' Hcan _ IH | line rest m k m' Hno _ IH];
    intros k2 m2 H2;
    inversion H2 as [| ? ? ? n2 ? ? ? ? Hcan2 Hrest2 | ? ? ? ? ? Hno2 Hrest2]; simplify_eq.
  - done.
  - destruct Hcan as (Hd & _), Hcan2 as (Hd' & _).
    assert (n2 = n) as -> by congruence.
    by destruct (IH _ _ Hrest2) as [-> ->].
  - exfalso. by eapply Hno2.
  - exfalso. by eapply Hno.
  - by apply IH.
Qed.


(** [undo_actions] on a log with records: one pass over the reversed
    slice, then the log is rewritten with the other slice. *)
Lemma undo_actions_run count w lines :
  journal w = Some lines → lines ≠ [] →
  ∃ k m',
    undo_actions env count w
    = (Ok k, {| fs := m'; journal := Some (Py.slice_to (- count) lines); clock := clock w |})
    ∧ undo_run env (reverse (Py.slice_from (- count) lines)) (fs w) k m'.
Proof.
  intros Hj Hne. unfold undo_actions. rewrite Hj.
  destruct lines as [|l ls]; [done|].
  destruct (undo_loop_run (reverse (Py.slice_from (- count) (l :: ls))) (fs w) 0)
    as (k & m' & Hrun & Hspec).
  rewrite Hrun. by exists k, m'.
Qed.


End Undo.

(** ** Move, then undo *)

Section RoundTrip.

Context (env : os_env) (cfg : config).

(** When the rename back is not refused, undoing one action right after a
    successful step brings the file back and restores the records of the
    action log. *)
Lemma round_trip_same_device cats file sz w cat w1 :
  fs w !! file = Some (File sz) →
  organize_file env cfg cats false file w = (Ok cat, w1) →
  (∀ final, rename_refused env final file = false) →
  ∃ final w2,
    journal w1 = Some (journal_lines w ++ [Entry (clock w) file final])
    ∧ undo_actions env 1 w1 = (Ok 1%nat, w2)
    ∧ fs w2 !! file = Some (File sz)
    ∧ fs w2 !! final = None
    ∧ journal w2 = Some (journal_lines w).
Proof.
  intros Hf (-> & dest & final & w0 & _ & Hs & ->)%organize_file_ok Hback.
  destruct (safe_move_moved _ _ _ _ _ _ _ Hf Hs) as (Hat & Hgone & Hj & Hc).
  set (lines := journal_lines w ++ [Entry (clock w) file final]).
  assert (journal (record_action file final w0).2 = Some lines) as Hlog.
  { simpl. unfold journal_lines, lines. by rewrite Hj, Hc. }
  destruct (undo_actions_run env 1 _ lines Hlog ltac:(by destruct (journal_lines w)))
    as (k & m' & Hrun & Hpass).
  rewrite slice_to_neg in Hrun by done. rewrite slice_from_neg in Hpass by done.
  assert (length lines - Nat.min (Z.to_nat 1) (length lines) = length (journal_lines w))%nat
    as Hlen.
  { unfold lines. rewrite length_app. change (Z.to_nat 1) with 1%nat. cbn [length]. lia. }
  rewrite Hlen in Hrun, Hpass. unfold lines in Hrun, Hpass.
  rewrite take_app_length in Hrun. rewrite drop_app_length in Hpass. simpl in Hpass.
  assert (undo_run env [Entry (clock w) file final] (fs w0) 1
            (<[file := File sz]> (delete final (fs w0)))) as Hexp.
  { eapply undo_run_reversed; [|constructor]. split_and!; [done..|apply Hback]. }
  destruct (undo_run_functional _ _ _ _ _ _ _ Hpass Hexp) as [-> ->].
  eexists final, _. split_and!; [done|apply Hrun|simpl..].
  - apply lookup_insert_eq.
  - assert (file ≠ final) by (intros ->; congruence).
    by rewrite lookup_insert_ne, lookup_delete_eq.
  - done.
Qed.

End RoundTrip.


(** * The claims *)

(** C1 at the failing input. Images is on another device: moving a.jpg into
    it succeeds through the copy fallback of [safe_move] and is logged;
    undoing 1 action right away calls [os.replace] alone, which is refused
    across devices. Nothing is reversed, a.jpg stays in Images, and the
    record is dropped from the log. *)
Theorem round_trip_fails_across_devices :
  let env := env_cross_device (downloads0 </> "Images") in
  let file := downloads0 </> "a.jpg" in
  let dest := downloads0 </> "Images" </> "a.jpg" in
  let moved := organize_file env config0 (lower_categories (Categories config0))
                 false file world_mounted in
  let undone := undo_actions env 1 moved.2 in
  fs world_mounted !! file = Some (File 1048576)
  ∧ moved.1 = Ok "Images"
  ∧ fs moved.2 !! dest = Some (File 1048576)
  ∧ fs moved.2 !! file = None
  ∧ journal moved.2 = Some [Entry 0 file dest]
  ∧ undone.1 = Ok 0%nat
  ∧ fs undone.2 !! file = None
  ∧ fs undone.2 !! dest = Some (File 1048576)
  ∧ journal undone.2 = Some [].
Proof. vm_compute. done. Qed.

(** C2. [resolve_name_collision] always returns, and never a path that
    exists: a free [dest] is returned unchanged, and for an occupied [dest]
    the result is the candidate "{stem} ({n}){suffix}" of [dest]'s folder
    with the least n >= 1 that does not exist. *)
Theorem resolve_name_collision_returns (m : gmap path node) (dest : path) :
  ∃ p, resolve_name_collision m dest = Ok p
       ∧ path_exists m p = false
       ∧ (path_exists m dest = false → p = dest)
       ∧ (path_exists m dest = true →
          ∃ n, (1 ≤ n)%nat ∧ p = candidate dest n
               ∧ ∀ k, (1 ≤ k < n)%nat → path_exists m (candidate dest k) = true).
Proof. apply resolve_name_collision_cases. Qed.






(** C5, as stated, fails: a.jpg can be neither renamed nor copied, and the
    run does not go on to b.png. [organize] raises the [OSError]; b.png is
    still where it was, nothing was logged, and no summary is returned. *)
Lemma move_failure_stops_run :
  let locked := downloads0 </> "a.jpg" in
  let r := organize (env_locked locked) config0 false None world0 in
  scan_folder downloads0 (Ignore config0) fs0 = Ok [locked; downloads0 </> "b.png"]
  ∧ r.1 = Raise OSError
  ∧ fs r.2 !! (downloads0 </> "b.png") = Some (File 629145600)
  ∧ fs r.2 !! (downloads0 </> "Images" </> "LargeFiles" </> "b.png") = None
  ∧ journal r.2 = None.
Proof. vm_compute. done. Qed.

(** C5, amended. When the step of a file raises (a refused move included),
    the loop stops there and [organize] raises: no summary is returned and
    the remaining files are not visited. The failed step has written no
    record, and every entry of the file map, the failed file and the
    remaining files among them, is where it was. *)
Theorem move_failure_aborts_run (env : os_env) (cfg : config) (cats : categories_t)
    (limit : option Z) (idx : nat) (file : path) (rest : list path)
    (summary : gmap string nat) (w : world) (e : exn) (w1 : world) :
  organize_file env cfg cats false file w = (Raise e, w1) →
  organize_loop env cfg cats false limit idx (file :: rest) summary w = (Raise e, w1)
  ∧ journal w1 = journal w
  ∧ ∀ p n, fs w !! p = Some n → fs w1 !! p = Some n.
Proof.
  intros Hstep. split.
  - simpl. unfold mbind, M_bind. by rewrite Hstep.
  - destruct (organize_file_cases env cfg cats file w)
      as [(e' & _ & He) | (dest & _ & [(e' & w2 & Hs & He) | (final & w2 & Hs & He)])];
      rewrite Hstep in He; simplify_eq.
    + done.
    + by apply safe_move_raise in Hs as (? & _ & ?).
Qed.

Lemma move_failure_aborts_run_witness :
  let env := env_locked (downloads0 </> "a.jpg") in
  let cats := lower_categories (Categories config0) in
  let w1 := (organize_file env config0 cats false (downloads0 </> "a.jpg") world0).2 in
  organize_loop env config0 cats false None 0
    [downloads0 </> "a.jpg"; downloads0 </> "b.png"] (empty_summary cats) world0
  = (Raise OSError, w1)
  ∧ journal w1 = journal world0
  ∧ ∀ p n, fs world0 !! p = Some n → fs w1 !! p = Some n.
Proof.
  intros env cats w1.
  exact (move_failure_aborts_run env config0 cats None 0 (downloads0 </> "a.jpg")
           [downloads0 </> "b.png"] (empty_summary cats) world0 OSError w1
           ltac:(vm_compute; reflexivity)).
Defined.

(** C6. A dry run changes neither the file map nor the action log (nor the
    clock), so a second dry run from the state the first one left returns
    the same result, the same RunSummary included. *)
Theorem dry_run_twice (env : os_env) (cfg : config) (limit : option Z) (w : world) :
  let r1 := organize env cfg true limit w in
  r1.2 = w ∧ organize env cfg true limit r1.2 = r1.
Proof.
  intros r1. assert (r1.2 = w) as Hw by apply organize_dry_run.
  split; [done|]. by rewrite Hw.
Qed.




(** The boundary of the rule for the threshold of 500 MB. *)
Example large_at_threshold :
  (inject_Z 500 <= size_mb 524288000)%Q ∧ (size_mb 524287999 < inject_Z 500)%Q.
Proof. by vm_compute. Qed.

(** C9, as stated, fails: Images/a.jpg is taken, and [safe_move] called
    with that destination returns Images/a (1).jpg. *)
Lemma safe_move_renames :
  let dest := downloads0 </> "Images" </> "a.jpg" in
  (safe_move env_ok (downloads0 </> "a.jpg") dest world_taken).1
  = Ok (downloads0 </> "Images" </> "a (1).jpg")
  ∧ downloads0 </> "Images" </> "a (1).jpg" ≠ dest.
Proof. split; [vm_compute; reflexivity | discriminate]. Qed.

(** C9, amended. [safe_move] resolves the collision itself, after creating
    the folder: it returns [dest] exactly when nothing exists at [dest] when
    it is called, and otherwise the first free candidate
    "{stem} ({n}){suffix}" next to it. The returned path was free and holds
    the moved file afterwards. *)
Theorem safe_move_returns_resolved (env : os_env) (src dest : path) (n : node)
    (w : world) (final : path) (w' : world) :
  fs w !! src = Some n →
  safe_move env src dest w = (Ok final, w') →
  (path_exists (fs w) dest = false → final = dest)
  ∧ (path_exists (fs w) dest = true →
     final ≠ dest
     ∧ ∃ k, (1 ≤ k)%nat ∧ final = candidate dest k
            ∧ ∀ j, (1 ≤ j < k)%nat → path_exists (fs w) (candidate dest j) = true)
  ∧ fs w !! final = None
  ∧ fs w' !! final = Some n.
Proof.
  intros Hsrc Hs.
  destruct (safe_move_final _ _ _ _ _ _ Hs) as (Hfree & Hsame & Hnext).
  destruct (safe_move_moved _ _ _ _ _ _ _ Hsrc Hs) as (Hat & _).
  done.
Qed.

Lemma safe_move_returns_resolved_witness :
  let src := downloads0 </> "a.jpg" in
  let dest := downloads0 </> "Images" </> "a.jpg" in
  let r := safe_move env_ok src dest world_taken in
  ∃ final,
    r.1 = Ok final
    ∧ (path_exists (fs world_taken) dest = false → final = dest)
    ∧ (path_exists (fs world_taken) dest = true →
       final ≠ dest
       ∧ ∃ k, (1 ≤ k)%nat ∧ final = candidate dest k
              ∧ ∀ j, (1 ≤ j < k)%nat → path_exists (fs world_taken) (candidate dest j) = true)
    ∧ fs world_taken !! final = None
    ∧ fs r.2 !! final = Some (File 1048576).
Proof.
  intros src dest r. exists (downloads0 </> "Images" </> "a (1).jpg").
  split; [vm_compute; reflexivity|].
  exact (safe_move_returns_resolved env_ok src dest (File 1048576) world_taken
           (downloads0 </> "Images" </> "a (1).jpg") r.2
           ltac:(vm_compute; reflexivity) ltac:(vm_compute; reflexivity)).
Defined.

(** C10. With [count = 0] on a log that has records, [lines[-0:]] is the
    whole log and [lines[:-0]] is empty: [undo_actions] makes its pass over
    every record, most recent first, and leaves the log empty. [main] only
    calls [undo_actions] with a non-zero count. *)
Theorem undo_zero_takes_all (env : os_env) (w : world) (lines : list jline) :
  journal w = Some lines → lines ≠ [] →
  (∃ undone m',
      undo_actions env 0 w
      = (Ok undone, {| fs := m'; journal := Some []; clock := clock w |})
      ∧ undo_run env (reverse lines) (fs w) undone m')
  ∧ ∀ cfg a w0 k w1,
      main env cfg a w0 = (Ok (Undone k), w1) →
      arg_undo a ≠ 0%Z ∧ undo_actions env (arg_undo a) w0 = (Ok k, w1).
Proof.
  intros Hj Hne. split.
  - destruct (undo_actions_run env 0 w lines Hj Hne) as (undone & m' & Hrun & Hpass).
    rewrite slice_to_zero in Hrun. rewrite slice_from_zero in Hpass.
    by exists undone, m'.
  - intros cfg a w0 k w1. unfold main, mbind, M_bind, mret, M_ret.
    destruct (Z.eqb_spec (arg_undo a) 0) as [Hz|Hz]; simpl.
    + destruct (organize _ _ _ _ w0) as [[s|e|] w2]; discriminate.
    + destruct (undo_actions env (arg_undo a) w0) as [[k'|e|] w2]; [|discriminate..].
      intros [= -> ->]. done.
Qed.

Lemma undo_zero_takes_all_witness :
  let w := (organize env_ok config0 false None world0).2 in
  let lines :=
    [ Entry 0 (downloads0 </> "a.jpg") (downloads0 </> "Images" </> "a.jpg");
      Entry 1 (downloads0 </> "b.png") (downloads0 </> "Images" </> "LargeFiles" </> "b.png") ] in
  (undo_actions env_ok 0 w).1 = Ok 2%nat
  ∧ ∃ undone m',
      undo_actions env_ok 0 w
      = (Ok undone, {| fs := m'; journal := Some []; clock := clock w |})
      ∧ undo_run env_ok (reverse lines) (fs w) undone m'.
Proof.
  intros w lines. split; [vm_compute; reflexivity|].
  exact (proj1 (undo_zero_takes_all env_ok w lines
                  ltac:(vm_compute; reflexivity) ltac:(discriminate))).
Defined.

(** * Further properties of the script *)

(** ** Scanning *)

Section Scan.

Implicit Types (m : gmap path node) (target f : path) (ignore : list string).

Lemma elem_of_iterdir target m ps f :
  iterdir target m = Ok ps →
  f ∈ ps ↔ is_Some (m !! f) ∧ f ≠ [] ∧ parent f = target.
Proof.
  unfold iterdir. destruct (m !! target) as [[sz|]|]; [done| |done].
  intros [= <-]. rewrite list_elem_of_filter. unfold is_child.
  rewrite bool_decide_eq_true, list_elem_of_fmap. split.
  - intros [[? ?] ([p n] & -> & Hin%elem_of_map_to_list)]. simpl in *. eauto.
  - intros ([n Hn] & ? & ?). split; [done|]. exists (f, n). split; [done|].
    by apply elem_of_map_to_list.
Qed.

Lemma scan_folder_ok target ignore m :
  m !! target = Some Dir →
  ∃ files,
    scan_folder target ignore m = Ok files
    ∧ NoDup files
    ∧ ∀ f, f ∈ files ↔
           (∃ sz, m !! f = Some (File sz)) ∧ f ≠ [] ∧ parent f = target
           ∧ name f ∉ ignore.
Proof.
  intros Ht. unfold scan_folder.
  destruct (iterdir target m) as [ps|e|] eqn:Hit;
    [|unfold iterdir in Hit; rewrite Ht in Hit; done..].
  eexists. split; [done|]. split.
  - apply NoDup_filter. unfold iterdir in Hit. rewrite Ht in Hit. injection Hit as <-.
    apply NoDup_filter, NoDup_fst_map_to_list.
  - intros f. rewrite list_elem_of_filter, (elem_of_iterdir _ _ _ _ Hit).
    unfold is_file. split.
    + intros [[Hf Hign] (_ & ? & ?)]. split_and!; [|done..].
      destruct (m !! f) as [[sz|]|]; [by exists sz|done..].
    + intros ([sz Hsz] & ? & ? & ?). rewrite Hsz. split_and!; eauto.
Qed.

End Scan.

(** ** The classifier on its own *)

Section ClassifierMore.

Lemma lower_fixed_elem ext exts : ext ∈ map Py.lower exts → Py.lower ext = ext.
Proof.
  intros [e [-> _]]%list_elem_of_fmap. apply lower_idemp.
Qed.

Lemma find_category_not_lower ext cats :
  Py.lower ext ≠ ext → find_category ext cats = "Others".
Proof.
  intros Hne. induction cats as [|[cat exts] rest IH]; simpl; [done|].
  case_bool_decide as Hin; [|done]. by apply lower_fixed_elem in Hin.
Qed.

Lemma find_category_key ext cats :
  find_category ext cats ∈ cats.*1 ∨ find_category ext cats = "Others".
Proof.
  induction cats as [|[cat exts] rest IH]; simpl; [by right|].
  case_bool_decide; [left; left|]. destruct IH; [left; by right|by right].
Qed.

End ClassifierMore.

(** ** The preview limit and the summary *)

Section Summary.

Context (env : os_env) (cfg : config).
Implicit Types (cats : categories_t) (summary s : gmap string nat) (w : world).
Implicit Types (files : list path).

(** A limit of 0 never stops the loop. *)
Lemma organize_loop_limit_zero cats dry_run idx files summary w :
  organize_loop env cfg cats dry_run (Some 0%Z) idx files summary w
  = organize_loop env cfg cats dry_run None idx files summary w.
Proof.
  revert idx summary w. induction files as [|f rest IH]; intros idx summary w; simpl; [done|].
  unfold mbind, M_bind. destruct (organize_file _ _ _ _ _ _) as [[cat|e|] w1]; [|done..].
  apply IH.
Qed.

(** Any other limit [n] stops the loop after [max 1 (n - idx)] more files. *)
Lemma organize_loop_limit cats dry_run (n : Z) idx files summary w :
  n ≠ 0%Z →
  organize_loop env cfg cats dry_run (Some n) idx files summary w
  = organize_loop env cfg cats dry_run None idx
      (take (Z.to_nat (Z.max 1 (n - Z.of_nat idx))) files) summary w.
Proof.
  intros Hn. revert idx summary w.
  induction files as [|f rest IH]; intros idx summary w; [by rewrite take_nil|].
  assert (∃ k, Z.to_nat (Z.max 1 (n - Z.of_nat idx)) = S k) as [k Hk]
    by (exists (Z.to_nat (Z.max 1 (n - Z.of_nat idx)) - 1)%nat; lia).
  rewrite Hk. simpl. unfold mbind, M_bind.
  destruct (organize_file _ _ _ _ _ _) as [[cat|e|] w1]; [|done..].
  unfold limit_reached. destruct (Z.eqb_spec n 0) as [|_]; [done|]. simpl.
  destruct (Z.leb_spec n (Z.of_nat idx + 1)) as [Hle|Hgt].
  - assert (k = 0%nat) as -> by lia. by rewrite take_0.
  - rewrite IH. do 2 f_equal. lia.
Qed.

(** The category a step yields is the one of the file, in every mode. *)
Lemma organize_file_cat cats dry_run file w cat w' :
  organize_file env cfg cats dry_run file w = (Ok cat, w') →
  cat = find_category (file_extension_lower file) cats.
Proof.
  unfold organize_file, mbind, M_bind, mret, M_ret. intros H.
  destruct (destination cfg _ file w) as [[dest|e|] w1]; [|done..].
  destruct dry_run.
  - by simplify_eq.
  - destruct (safe_move env file dest w1) as [[final|e|] w2]; [|done..].
    unfold record_action in H. by simplify_eq.
Qed.

(** A loop that runs to its end has counted each file in its category. *)
Lemma organize_loop_tally cats dry_run idx files summary w s w' :
  organize_loop env cfg cats dry_run None idx files summary w = (Ok s, w') →
  s = tally cats files summary.
Proof.
  revert idx summary w. induction files as [|f rest IH]; intros idx summary w; simpl.
  - unfold mret, M_ret. by intros [= <- _].
  - unfold mbind, M_bind.
    destruct (organize_file _ _ _ _ _ _) as [[cat|e|] w1] eqn:Hstep; [|done..].
    apply organize_file_cat in Hstep as ->. apply IH.
Qed.

(** In a dry run the loop cannot fail on regular files. *)
Lemma organize_loop_dry_run_ok cats idx files summary w :
  (∀ f, f ∈ files → is_file (fs w) f = true) →
  organize_loop env cfg cats true None idx files summary w
  = (Ok (tally cats files summary), w).
Proof.
  revert idx summary. induction files as [|f rest IH]; intros idx summary Hfiles; simpl; [done|].
  unfold mbind, M_bind.
  assert (organize_file env cfg cats true f w
          = (Ok (find_category (file_extension_lower f) cats), w)) as ->.
  { unfold organize_file, mbind, M_bind, mret, M_ret.
    specialize (Hfiles f ltac:(left)). unfold is_file in Hfiles.
    destruct (fs w !! f) as [[sz|]|] eqn:Hf; [|done..].
    destruct (destination_cases cfg (find_category (file_extension_lower f) cats) f w)
      as [[dest ->] | [e He]]; [done|].
    exfalso. revert He.
    unfold destination, mbind, M_bind, mret, M_ret, read_fs, stat_size.
    destruct (negb _); [|done]. rewrite Hf. by destruct (Qle_bool _ _). }
  apply IH. intros g Hg. apply Hfiles. by right.
Qed.

(** Counting a file raises the total by one, whether or not the category
    was a key. *)
Lemma total_count_in cat s : total (count_in cat s) = S (total s).
Proof.
  unfold total, count_in.
  destruct (s !! cat) as [v|] eqn:Hc; simpl.
  - rewrite <- (insert_delete_eq s cat (S v)).
    rewrite map_fold_insert_L; [|intros; simpl; lia|apply lookup_delete_eq].
    rewrite (map_fold_delete_L _ _ cat v s); [lia|intros; simpl; lia|done].
  - rewrite map_fold_insert_L; [lia|intros; simpl; lia|done].
Qed.

Lemma total_tally cats files s : total (tally cats files s) = (total s + length files)%nat.
Proof.
  revert s. induction files as [|f rest IH]; intros s; simpl; [lia|].
  unfold tally in *. simpl. rewrite IH, total_count_in. lia.
Qed.

Lemma total_empty_summary cats : total (empty_summary cats) = 0%nat.
Proof.
  unfold total. apply (map_fold_weak_ind (λ n m, (∀ k v, m !! k = Some v → v = 0%nat) → n = 0%nat)).
  - done.
  - intros k v m r Hk IH Hall.
    rewrite (Hall k v) by apply lookup_insert_eq.
    apply IH. intros k' v' Hk'. apply (Hall k').
    rewrite lookup_insert_ne; [done|]. intros ->. congruence.
  - unfold empty_summary. intros k v Hk%elem_of_list_to_map_2.
    by apply list_elem_of_fmap in Hk as (? & [= _ ->] & _).
Qed.

(** Counting never adds a key to a summary that has every category. *)
Lemma dom_tally cats files s :
  list_to_set cats.*1 ∪ {["Others"]} ⊆ dom s → dom (tally cats files s) = dom s.
Proof.
  revert s. induction files as [|f rest IH]; intros s Hs; [done|].
  unfold tally in *. simpl.
  assert (dom (count_in (find_category (file_extension_lower f) cats) s) = dom s) as Hd.
  { unfold count_in. rewrite dom_insert_L.
    assert (find_category (file_extension_lower f) cats ∈ dom s) as Hin.
    { apply Hs. destruct (find_category_key (file_extension_lower f) cats) as [Hk| ->].
      - apply elem_of_union_l. by apply elem_of_list_to_set.
      - apply elem_of_union_r. by apply elem_of_singleton. }
    apply set_eq. intros x. rewrite elem_of_union, elem_of_singleton.
    split; [by intros [->|?]|by right]. }
  rewrite IH; [done|]. by rewrite Hd.
Qed.

Lemma dom_empty_summary cats :
  dom (empty_summary cats) = list_to_set cats.*1 ∪ {["Others"]}.
Proof.
  unfold empty_summary. rewrite dom_list_to_map_L.
  assert (∀ l : list string, ((λ k, (k, 0%nat)) <$> l).*1 = l) as Hfst.
  { induction l as [|k l IH]; [done|]. rewrite !fmap_cons. simpl. by rewrite IH. }
  rewrite (Hfst (cats.*1 ++ ["Others"])), list_to_set_app_L. set_solver.
Qed.

Lemma lower_categories_keys cats : (lower_categories cats).*1 = cats.*1.
Proof.
  unfold lower_categories. induction cats as [|kv cats IH]; [done|].
  rewrite !fmap_cons. simpl. by rewrite IH.
Qed.

(** [organize], by what is at the target path. *)
Lemma organize_cases dry_run limit w :
  match fs w !! DownloadsPath cfg with
  | None => organize env cfg dry_run limit w = (Raise FileNotFoundError, w)
  | Some (File _) => organize env cfg dry_run limit w = (Raise NotADirectoryError, w)
  | Some Dir =>
      ∃ files,
        scan_folder (DownloadsPath cfg) (Ignore cfg) (fs w) = Ok files
        ∧ organize env cfg dry_run limit w
          = organize_loop env cfg (lower_categories (Categories cfg)) dry_run None 0
              (previewed limit files) (empty_summary (lower_categories (Categories cfg))) w
  end.
Proof.
  unfold organize, mbind, M_bind, read_fs, raise, path_exists, scan_folder, iterdir.
  destruct (fs w !! DownloadsPath cfg) as [[sz|]|] eqn:Ht; simpl; rewrite ?Ht; simpl;
    [done| |done].
  eexists. split; [done|].
  destruct limit as [n|]; [|done]. unfold previewed.
  destruct (Z.eqb_spec n 0) as [->|Hn].
  - apply organize_loop_limit_zero.
  - rewrite organize_loop_limit by done. do 2 f_equal. lia.
Qed.

End Summary.

Section SummaryMore.

Context (env : os_env) (cfg : config).
Implicit Types (cats : categories_t) (summary s : gmap string nat) (w : world).
Implicit Types (files : list path).

Lemma scan_folder_is_dir (target : path) (ignore : list string) (m : gmap path node) files :
  scan_folder target ignore m = Ok files → m !! target = Some Dir.
Proof.
  unfold scan_folder, iterdir. by destruct (m !! target) as [[sz|]|].
Qed.

(** [organize] is the loop without limit over the previewed files. *)
Lemma organize_scanned dry_run limit w files :
  scan_folder (DownloadsPath cfg) (Ignore cfg) (fs w) = Ok files →
  organize env cfg dry_run limit w
  = organize_loop env cfg (lower_categories (Categories cfg)) dry_run None 0
      (previewed limit files) (empty_summary (lower_categories (Categories cfg))) w.
Proof.
  intros Hscan. pose proof (organize_cases env cfg dry_run limit w) as H.
  rewrite (scan_folder_is_dir _ _ _ _ Hscan) in H.
  destruct H as (files' & Hscan' & ->). congruence.
Qed.

Lemma previewed_sublist limit files f : f ∈ previewed limit files → f ∈ files.
Proof.
  unfold previewed. destruct limit as [n|]; [|done].
  destruct (n =? 0)%Z; [done|]. apply subseteq_take.
Qed.

(** Each successful non-dry-run step adds one line to the action log. *)
Lemma organize_loop_journal_length cats idx files summary w s w' :
  organize_loop env cfg cats false None idx files summary w = (Ok s, w') →
  length (journal_lines w') = (length (journal_lines w) + length files)%nat.
Proof.
  revert idx summary w. induction files as [|f rest IH]; intros idx summary w; simpl.
  - unfold mret, M_ret. intros [= _ <-]. lia.
  - unfold mbind, M_bind.
    destruct (organize_file _ _ _ _ _ _) as [[cat|e|] w1] eqn:Hstep; [|done..].
    intros Hrun. rewrite (IH _ _ _ Hrun).
    apply organize_file_ok in Hstep as (_ & dest & final & w0 & _ & Hs & ->).
    apply safe_move_ok in Hs as (m1 & n & _ & _ & _ & _ & ->).
    unfold journal_lines, set_fs. simpl. unfold journal_lines. simpl.
    rewrite length_app. simpl. lia.
Qed.

(** A dry run over a scanned folder returns the tally, and the world. *)
Lemma organize_dry_run_tally limit w files :
  scan_folder (DownloadsPath cfg) (Ignore cfg) (fs w) = Ok files →
  organize env cfg true limit w
  = (Ok (tally (lower_categories (Categories cfg)) (previewed limit files)
           (empty_summary (lower_categories (Categories cfg)))), w).
Proof.
  intros Hscan. rewrite (organize_scanned _ _ _ _ Hscan).
  apply organize_loop_dry_run_ok.
  pose proof (scan_folder_is_dir _ _ _ _ Hscan) as Hd.
  destruct (scan_folder_ok (DownloadsPath cfg) (Ignore cfg) (fs w) Hd)
    as (files' & Hscan' & _ & Hfiles).
  assert (files' = files) as -> by congruence.
  intros f [[sz Hf] _]%previewed_sublist%Hfiles. unfold is_file. by rewrite Hf.
Qed.

End SummaryMore.

(** ** What [organize] leaves alone *)

Section Frame.

Context (env : os_env) (cfg : config).
Implicit Types (cats : categories_t) (summary s : gmap string nat) (w : world).
Implicit Types (files : list path) (p f file dest final : path) (n : node).

Lemma scan_folder_elem (target : path) (ignore : list string) (m : gmap path node) files f :
  scan_folder target ignore m = Ok files →
  f ∈ files ↔
    (∃ sz, m !! f = Some (File sz)) ∧ f ≠ [] ∧ parent f = target ∧ name f ∉ ignore.
Proof.
  intros Hscan. pose proof (scan_folder_is_dir _ _ _ _ Hscan) as Hd.
  destruct (scan_folder_ok target ignore m Hd) as (files' & Hscan' & _ & Hfiles).
  assert (files' = files) as -> by congruence. apply Hfiles.
Qed.






End Frame.

(** ** Stem and suffix *)

Section Names.

Implicit Types (s a b : string) (c : ascii) (p dest : path).

Lemma string_app_cons c s a : String c s +:+ a = String c (s +:+ a).
Proof. done. Qed.

Lemma string_app_nil a : "" +:+ a = a.
Proof. done. Qed.

Lemma string_app_empty_r s : s +:+ "" = s.
Proof. induction s as [|c s IH]; [done|]. by rewrite string_app_cons, IH. Qed.

Lemma string_app_assoc a b s : (a +:+ b) +:+ s = a +:+ (b +:+ s).
Proof. induction a as [|c a IH]; [done|]. by rewrite !string_app_cons, IH. Qed.

Lemma substring_all s : String.substring 0 (String.length s) s = s.
Proof. induction s as [|c s IH]; simpl; [done|]. by rewrite IH. Qed.

Lemma substring_app_l a b : String.substring 0 (String.length a) (a +:+ b) = a.
Proof.
  induction a as [|c a IH]; [by destruct b|].
  rewrite string_app_cons. simpl. by rewrite IH.
Qed.

Lemma substring_app_r a b :
  String.substring (String.length a) (String.length b) (a +:+ b) = b.
Proof.
  induction a as [|c a IH]; [apply substring_all|].
  rewrite string_app_cons. simpl. apply IH.
Qed.

(** The last occurrence splits the string. *)
Lemma rfind_Some c s i :
  Py.rfind c s = Some i →
  ∃ a b, s = a +:+ String c b ∧ String.length a = i ∧ Py.rfind c b = None.
Proof.
  revert i. induction s as [|x s IH]; intros i; simpl; [done|].
  destruct (Py.rfind c s) as [j|] eqn:Hj.
  - intros [= <-]. destruct (IH j eq_refl) as (a & b & -> & <- & Hb).
    by exists (String x a), b.
  - destruct (Ascii.eqb_spec x c) as [->|]; [|done].
    intros [= <-]. by exists "", s.
Qed.

Lemma rfind_app c a b :
  Py.rfind c (a +:+ b)
  = match Py.rfind c b with
    | Some j => Some (String.length a + j)%nat
    | None => Py.rfind c a
    end.
Proof.
  induction a as [|x a IH].
  - rewrite string_app_nil. by destruct (Py.rfind c b).
  - rewrite string_app_cons. simpl. rewrite IH. by destruct (Py.rfind c b).
Qed.

Lemma rfind_cons_eq c b : Py.rfind c b = None → Py.rfind c (String c b) = Some 0%nat.
Proof. intros Hb. simpl. rewrite Hb. by rewrite Ascii.eqb_refl. Qed.

(** A name is its stem followed by its suffix. *)
Lemma stem_suffix p : name p = stem p +:+ suffix p.
Proof.
  unfold stem, suffix, suffix_index.
  destruct (Py.rfind "." (name p)) as [i|] eqn:Hi; [|by rewrite string_app_empty_r].
  destruct (_ && _); [|by rewrite string_app_empty_r].
  destruct (rfind_Some _ _ _ Hi) as (a & b & Heq & <- & _). rewrite Heq.
  rewrite substring_app_l.
  replace (String.length (a +:+ String "." b) - String.length a)%nat
    with (String.length (String "." b)) by (rewrite string_app_length; lia).
  by rewrite substring_app_r.
Qed.

(** A suffix is a dot followed by at least one character, none a dot, and
    comes after a stem that is not empty. *)
Lemma suffix_shape p :
  suffix p ≠ "" →
  ∃ b, suffix p = String "." b ∧ b ≠ "" ∧ Py.rfind "." b = None ∧ stem p ≠ "".
Proof.
  unfold stem, suffix, suffix_index.
  destruct (Py.rfind "." (name p)) as [i|] eqn:Hi; [|done].
  destruct (rfind_Some _ _ _ Hi) as (a & b & Heq & <- & Hb). rewrite Heq.
  rewrite string_app_length. simpl.
  destruct (Nat.ltb_spec 0 (String.length a)) as [Ha|]; [|done].
  destruct (Nat.ltb_spec (String.length a) (String.length a + S (String.length b) - 1))
    as [Hlen|]; [|done].
  simpl. intros _. exists b.
  replace (String.length a + S (String.length b) - String.length a)%nat
    with (String.length (String "." b)) by (simpl; lia).
  rewrite substring_app_r, substring_app_l. split_and!; [done| |done|].
  - intros ->. simpl in Hlen. lia.
  - intros ->. simpl in Ha. lia.
Qed.

(** The candidates of a name with a suffix: the counter goes into the stem,
    the suffix stays. *)
Lemma candidate_stem_suffix dest n :
  suffix dest ≠ "" →
  suffix (candidate dest n) = suffix dest
  ∧ stem (candidate dest n) = stem dest +:+ " (" +:+ pretty n +:+ ")".
Proof.
  intros (b & Hsuf & Hb & Hnodot & Hstem)%suffix_shape.
  set (a := stem dest +:+ " (" +:+ pretty n +:+ ")").
  assert (name (candidate dest n) = a +:+ String "." b) as Hname.
  { unfold candidate. rewrite name_joinpath, Hsuf. unfold a.
    by rewrite !string_app_assoc. }
  assert (Py.rfind "." (a +:+ String "." b) = Some (String.length a)) as Hr.
  { rewrite rfind_app, (rfind_cons_eq _ _ Hnodot). f_equal. lia. }
  assert (0 < String.length a)%nat as Ha.
  { unfold a. destruct (stem dest); [done|]. simpl. lia. }
  assert (0 < String.length b)%nat as Hlb by (destruct b; [done|simpl; lia]).
  unfold suffix at 1, stem at 1, suffix_index. rewrite Hname, Hr, string_app_length. simpl.
  destruct (Nat.ltb_spec 0 (String.length a)) as [_|]; [|lia].
  destruct (Nat.ltb_spec (String.length a) (String.length a + S (String.length b) - 1))
    as [_|]; [|lia].
  simpl.
  replace (String.length a + S (String.length b) - String.length a)%nat
    with (String.length (String "." b)) by (simpl; lia).
  by rewrite substring_app_r, substring_app_l, Hsuf.
Qed.

End Names.

(** ** Folders and the mover *)

Section MoverMore.

Context (env : os_env).
Implicit Types (m : gmap path node) (p q src dest final : path) (w : world) (n : node).

Lemma mkdir1_keeps_file q m m' p sz :
  mkdir1 q m = Ok m' → m !! p = Some (File sz) → m' !! p = Some (File sz).
Proof.
  unfold mkdir1. destruct (m !! q) as [[s|]|] eqn:Hq; [done|by intros [= <-]|].
  intros [= <-] Hp. rewrite lookup_insert_ne; [done|]. intros ->. congruence.
Qed.

(** A regular file at one of the paths makes [mkdirs] raise. *)
Lemma mkdirs_blocked ps m q sz :
  q ∈ ps → m !! q = Some (File sz) → ∃ e, mkdirs ps m = Raise e.
Proof.
  revert m. induction ps as [|p ps IH]; intros m Hin Hq; [by apply elem_of_nil in Hin|].
  simpl. destruct (mkdir1 p m) as [m1|e|] eqn:H1.
  - apply elem_of_cons in Hin as [->|Hin].
    + unfold mkdir1 in H1. by rewrite Hq in H1.
    + apply (IH m1 Hin). by eapply mkdir1_keeps_file.
  - by exists e.
  - unfold mkdir1 in H1. by destruct (m !! p) as [[?|]|].
Qed.


Lemma mkdirs_creates ps m m' q :
  mkdirs ps m = Ok m' → q ∈ ps → m' !! q = Some Dir.
Proof.
  revert m. induction ps as [|p ps IH]; intros m H Hin; [by apply elem_of_nil in Hin|].
  simpl in H. destruct (mkdir1 p m) as [m1|e|] eqn:H1; [|done..].
  apply elem_of_cons in Hin as [->|Hin]; [|by eapply IH].
  assert (m1 !! p = Some Dir) as Hp.
  { unfold mkdir1 in H1. destruct (m !! p) as [[sz|]|] eqn:Hmp; [done|by simplify_eq|].
    simplify_eq. apply lookup_insert_eq. }
  destruct (mkdirs_ok _ _ _ H p) as [->|(? & _)]; [done|congruence].
Qed.

(** The returned path is in the folder that was asked for. *)
Lemma resolve_parent m dest final :
  resolve_name_collision m dest = Ok final → parent final = parent dest.
Proof.
  intros H. destruct (resolve_name_collision_cases m dest) as (p & Hp & _ & Hsame & Hnext).
  rewrite H in Hp. injection Hp as <-.
  destruct (path_exists m dest) eqn:Hd.
  - destruct (Hnext eq_refl) as (k & _ & -> & _). apply parent_candidate.
  - by rewrite (Hsame eq_refl).
Qed.

(** Resolving a resolved path changes nothing. *)
Lemma resolve_stable m dest final :
  resolve_name_collision m dest = Ok final → resolve_name_collision m final = Ok final.
Proof.
  intros H. destruct (resolve_name_collision_cases m dest) as (p & Hp & Hfree & _).
  rewrite H in Hp. injection Hp as <-.
  unfold resolve_name_collision. by rewrite Hfree.
Qed.

End MoverMore.

(** ** The undo pass and the file map *)

Section UndoMore.

Context (env : os_env).
Implicit Types (m : gmap path node) (lines : list jline) (w : world) (p : path).




(** [undo_actions] always returns a count. *)
Lemma undo_actions_returns count w : ∃ n, (undo_actions env count w).1 = Ok n.
Proof.
  unfold undo_actions. destruct (journal w) as [[|l ls]|]; [by eexists| |by eexists].
  destruct (undo_loop _ _ _ _). by eexists.
Qed.

End UndoMore.

(** ** A whole run, undone *)

Section RunUndone.

Context (env : os_env) (cfg : config).
Implicit Types (cats : categories_t) (summary s : gmap string nat) (w : world).
Implicit Types (files : list path) (p f file dest final : path) (m : gmap path node).






End RunUndone.

Section RunUndoneTop.

Context (env : os_env) (cfg : config).



End RunUndoneTop.

(** * Further properties, one theorem each *)

(** X1. [scan_folder] on a folder returns, without repetition, exactly the
    regular files directly inside it whose name is not in the ignore list;
    sub-folders and deeper entries are left out. On a missing target it
    raises [FileNotFoundError], on a regular file [NotADirectoryError]. *)
Theorem scan_folder_lists_files (target : path) (ignore : list string)
    (m : gmap path node) :
  match m !! target with
  | Some Dir =>
      ∃ files,
        scan_folder target ignore m = Ok files
        ∧ NoDup files
        ∧ ∀ f, f ∈ files ↔
               (∃ sz, m !! f = Some (File sz)) ∧ f ≠ [] ∧ parent f = target
               ∧ name f ∉ ignore
  | Some (File _) => scan_folder target ignore m = Raise NotADirectoryError
  | None => scan_folder target ignore m = Raise FileNotFoundError
  end.
Proof.
  destruct (m !! target) as [[sz|]|] eqn:Ht.
  - unfold scan_folder, iterdir. by rewrite Ht.
  - by apply scan_folder_ok.
  - unfold scan_folder, iterdir. by rewrite Ht.
Qed.

(** X2. [find_category] compares its argument as it is: an extension that
    is not already lower-case matches no category, whatever the
    configuration lists, and gets "Others". *)
Theorem find_category_is_case_sensitive (ext : string) (cats : categories_t) :
  Py.lower ext ≠ ext → find_category ext cats = "Others".
Proof. apply find_category_not_lower. Qed.

Lemma find_category_is_case_sensitive_witness :
  find_category ".JPG" [("Images", [".jpg"; ".JPG"])] = "Others".
Proof.
  exact (find_category_is_case_sensitive ".JPG" [("Images", [".jpg"; ".JPG"])]
           ltac:(discriminate)).
Defined.

(** X3. When the target path is missing, [organize] raises
    [FileNotFoundError], and when it is a regular file,
    [NotADirectoryError]; in both cases, dry run or not, the world is left
    as it was. *)
Theorem organize_needs_folder (env : os_env) (cfg : config) (dry_run : bool)
    (limit : option Z) (w : world) :
  fs w !! DownloadsPath cfg ≠ Some Dir →
  ∃ e, organize env cfg dry_run limit w = (Raise e, w)
       ∧ (fs w !! DownloadsPath cfg = None → e = FileNotFoundError)
       ∧ (is_Some (fs w !! DownloadsPath cfg) → e = NotADirectoryError).
Proof.
  intros Hnd. pose proof (organize_cases env cfg dry_run limit w) as H.
  destruct (fs w !! DownloadsPath cfg) as [[sz|]|] eqn:Ht; [|done|].
  - exists NotADirectoryError. split_and!; [done..|]. done.
  - exists FileNotFoundError. split_and!; [done|done|]. by intros [? ?].
Qed.

Lemma organize_needs_folder_witness :
  ∃ e, organize env_ok config0 false None world_empty = (Raise e, world_empty)
       ∧ (fs world_empty !! DownloadsPath config0 = None → e = FileNotFoundError)
       ∧ (is_Some (fs world_empty !! DownloadsPath config0) → e = NotADirectoryError).
Proof.
  exact (organize_needs_folder env_ok config0 false None world_empty
           ltac:(vm_compute; intros H; discriminate H)).
Defined.

(** X4. With a preview limit n other than 0, [organize] processes exactly
    the first max(1, n) scanned files, so one file even when n is
    negative; with 0 or no limit it processes all of them. *)
Theorem organize_preview_limit (env : os_env) (cfg : config) (dry_run : bool)
    (limit : option Z) (w : world) (files : list path) :
  scan_folder (DownloadsPath cfg) (Ignore cfg) (fs w) = Ok files →
  organize env cfg dry_run limit w
  = organize_loop env cfg (lower_categories (Categories cfg)) dry_run None 0
      (previewed limit files) (empty_summary (lower_categories (Categories cfg))) w
  ∧ (∀ n, limit = Some n → (n < 0)%Z → previewed limit files = take 1 files)
  ∧ (∀ n, limit = Some n → (0 < n)%Z → previewed limit files = take (Z.to_nat n) files)
  ∧ (limit = Some 0%Z ∨ limit = None → previewed limit files = files).
Proof.
  intros Hscan. split; [by apply organize_scanned|]. unfold previewed. split_and!.
  - intros n -> Hn. destruct (Z.eqb_spec n 0); [lia|]. f_equal. lia.
  - intros n -> Hn. destruct (Z.eqb_spec n 0); [lia|]. f_equal. lia.
  - by intros [-> | ->].
Qed.

Lemma organize_preview_limit_witness :
  let files := [downloads0 </> "a.jpg"; downloads0 </> "b.png"] in
  organize env_ok config0 false (Some (-3)%Z) world0
  = organize_loop env_ok config0 (lower_categories (Categories config0)) false None 0
      (previewed (Some (-3)%Z) files) (empty_summary (lower_categories (Categories config0)))
      world0
  ∧ (∀ n, Some (-3)%Z = Some n → (n < 0)%Z → previewed (Some (-3)%Z) files = take 1 files)
  ∧ (∀ n, Some (-3)%Z = Some n → (0 < n)%Z
          → previewed (Some (-3)%Z) files = take (Z.to_nat n) files)
  ∧ (Some (-3)%Z = Some 0%Z ∨ Some (-3)%Z = None → previewed (Some (-3)%Z) files = files).
Proof.
  intros files.
  exact (organize_preview_limit env_ok config0 false (Some (-3)%Z) world0 files
           ltac:(vm_compute; reflexivity)).
Defined.

(** X5. A dry run over a folder never fails: it returns the tally by
    category of the previewed files, with every count starting at 0, and
    the world unchanged. *)
Theorem dry_run_reports_tally (env : os_env) (cfg : config) (limit : option Z) (w : world) :
  fs w !! DownloadsPath cfg = Some Dir →
  ∃ files,
    scan_folder (DownloadsPath cfg) (Ignore cfg) (fs w) = Ok files
    ∧ organize env cfg true limit w
      = (Ok (tally (lower_categories (Categories cfg)) (previewed limit files)
               (empty_summary (lower_categories (Categories cfg)))), w).
Proof.
  intros Hd.
  destruct (scan_folder_ok (DownloadsPath cfg) (Ignore cfg) (fs w) Hd)
    as (files & Hscan & _ & Hfiles).
  exists files. split; [done|]. by apply organize_dry_run_tally.
Qed.

Lemma dry_run_reports_tally_witness :
  ∃ files,
    scan_folder (DownloadsPath config0) (Ignore config0) (fs world0) = Ok files
    ∧ organize env_ok config0 true None world0
      = (Ok (tally (lower_categories (Categories config0)) (previewed None files)
               (empty_summary (lower_categories (Categories config0)))), world0).
Proof.
  exact (dry_run_reports_tally env_ok config0 None world0 ltac:(vm_compute; reflexivity)).
Defined.

(** X6. A dry run is a faithful preview: whenever the real run from the
    same world returns a summary, the dry run returns that same summary. *)
Theorem dry_run_predicts_run (env env' : os_env) (cfg : config) (limit : option Z)
    (w : world) (s : gmap string nat) (w' : world) :
  organize env cfg false limit w = (Ok s, w') →
  organize env' cfg true limit w = (Ok s, w).
Proof.
  intros Hrun. pose proof (organize_cases env cfg false limit w) as H.
  destruct (fs w !! DownloadsPath cfg) as [[sz|]|] eqn:Hd; [congruence| |congruence].
  destruct H as (files & Hscan & Heq). rewrite Heq in Hrun.
  apply organize_loop_tally in Hrun as ->.
  by apply organize_dry_run_tally.
Qed.

Lemma dry_run_predicts_run_witness :
  organize (env_locked (downloads0 </> "a.jpg")) config0 true None world0
  = ((organize env_ok config0 false None world0).1, world0).
Proof.
  exact (dry_run_predicts_run env_ok (env_locked (downloads0 </> "a.jpg")) config0 None world0
           (tally (lower_categories (Categories config0))
              [downloads0 </> "a.jpg"; downloads0 </> "b.png"]
              (empty_summary (lower_categories (Categories config0))))
           (organize env_ok config0 false None world0).2
           ltac:(vm_compute; reflexivity)).
Defined.

(** X7. The summary of a successful real run counts exactly the files that
    were processed, and the action log has grown by exactly that many
    lines: no count without a move, no move without a count. *)
Theorem summary_counts_moves (env : os_env) (cfg : config) (limit : option Z)
    (w : world) (s : gmap string nat) (w' : world) :
  organize env cfg false limit w = (Ok s, w') →
  ∃ files,
    scan_folder (DownloadsPath cfg) (Ignore cfg) (fs w) = Ok files
    ∧ total s = length (previewed limit files)
    ∧ length (journal_lines w') = (length (journal_lines w) + total s)%nat.
Proof.
  intros Hrun. pose proof (organize_cases env cfg false limit w) as H.
  destruct (fs w !! DownloadsPath cfg) as [[sz|]|] eqn:Hd; [congruence| |congruence].
  destruct H as (files & Hscan & Heq). rewrite Heq in Hrun. exists files.
  pose proof (organize_loop_journal_length _ _ _ _ _ _ _ _ _ Hrun) as Hlen.
  apply organize_loop_tally in Hrun as ->.
  rewrite total_tally, total_empty_summary. split_and!; [done|lia|lia].
Qed.

Lemma summary_counts_moves_witness :
  let r := organize env_ok config0 false None world0 in
  ∃ s, r.1 = Ok s
    ∧ ∃ files,
        scan_folder (DownloadsPath config0) (Ignore config0) (fs world0) = Ok files
        ∧ total s = length (previewed None files)
        ∧ length (journal_lines r.2) = (length (journal_lines world0) + total s)%nat.
Proof.
  intros r.
  exists (tally (lower_categories (Categories config0))
            [downloads0 </> "a.jpg"; downloads0 </> "b.png"]
            (empty_summary (lower_categories (Categories config0)))).
  split; [vm_compute; reflexivity|].
  exact (summary_counts_moves env_ok config0 None world0 _ r.2
           ltac:(vm_compute; reflexivity)).
Defined.

(** X8. The summary [organize] returns has a key for every configured
    category and for "Others", and no other key: counting a file never
    adds one. *)
Theorem summary_keys (env : os_env) (cfg : config) (dry_run : bool) (limit : option Z)
    (w : world) (s : gmap string nat) (w' : world) :
  organize env cfg dry_run limit w = (Ok s, w') →
  dom s = list_to_set (Categories cfg).*1 ∪ {["Others"]}.
Proof.
  intros Hrun. pose proof (organize_cases env cfg dry_run limit w) as H.
  destruct (fs w !! DownloadsPath cfg) as [[sz|]|] eqn:Hd; [congruence| |congruence].
  destruct H as (files & Hscan & Heq). rewrite Heq in Hrun.
  apply organize_loop_tally in Hrun as ->.
  rewrite dom_tally; rewrite dom_empty_summary, lower_categories_keys; done.
Qed.

Lemma summary_keys_witness :
  let r := organize env_ok config0 false None world0 in
  ∃ s, r.1 = Ok s ∧ dom s = list_to_set (Categories config0).*1 ∪ {["Others"]}.
Proof.
  intros r.
  exists (tally (lower_categories (Categories config0))
            [downloads0 </> "a.jpg"; downloads0 </> "b.png"]
            (empty_summary (lower_categories (Categories config0)))).
  split; [vm_compute; reflexivity|].
  exact (summary_keys env_ok config0 false None world0 _ r.2
           ltac:(vm_compute; reflexivity)).
Defined.

(** X9. [organize] touches nothing but the files it scanned: an ignored
    file, a sub-folder, and any entry that is not directly inside the
    target keeps its node, however the run ends. *)
Theorem organize_keeps_unscanned (env : os_env) (cfg : config) (dry_run : bool)
    (limit : option Z) (w : world) (r : outcome (gmap string nat)) (w' : world)
    (p : path) (n : node) :
  organize env cfg dry_run limit w = (r, w') →
  fs w !! p = Some n →
  n = Dir ∨ p = [] ∨ parent p ≠ DownloadsPath cfg ∨ name p ∈ Ignore cfg →
  fs w' !! p = Some n.
Proof.
  intros Hrun Hp Hout. pose proof (organize_cases env cfg dry_run limit w) as H.
  destruct (fs w !! DownloadsPath cfg) as [[sz|]|] eqn:Hd; [congruence| |congruence].
  destruct H as (files & Hscan & Heq). rewrite Heq in Hrun.
  eapply organize_loop_keeps; [done| |done].
  intros Hin%previewed_sublist. apply (scan_folder_elem _ _ _ _ _ Hscan) in Hin.
  destruct Hin as ([sz Hsz] & Hne & Hpar & Hign).
  destruct Hout as [-> | [-> | [? | ?]]]; [congruence|done..].
Qed.

Lemma organize_keeps_unscanned_witness :
  fs (organize env_ok config0 false None world0).2 !! (downloads0 </> "desktop.ini")
  = Some (File 10).
Proof.
  exact (organize_keeps_unscanned env_ok config0 false None world0
           (organize env_ok config0 false None world0).1
           (organize env_ok config0 false None world0).2
           (downloads0 </> "desktop.ini") (File 10)
           ltac:(vm_compute; reflexivity) ltac:(vm_compute; reflexivity)
           ltac:(right; right; right; vm_compute; left)).
Defined.





(** X12. A collision candidate keeps the extension: for a destination name
    with a suffix, the counter goes to the end of the stem and the suffix
    is unchanged, so the renamed file is classified like the original. *)
Theorem candidate_keeps_extension (dest : path) (n : nat) (cats : categories_t) :
  suffix dest ≠ "" →
  suffix (candidate dest n) = suffix dest
  ∧ stem (candidate dest n) = stem dest +:+ " (" +:+ pretty n +:+ ")"
  ∧ find_category (file_extension_lower (candidate dest n)) cats
    = find_category (file_extension_lower dest) cats.
Proof.
  intros [Hsuf Hstem]%(candidate_stem_suffix dest n).
  split_and!; [done..|]. unfold file_extension_lower. by rewrite Hsuf.
Qed.

Lemma candidate_keeps_extension_witness :
  let dest := downloads0 </> "Images" </> "a.tar.gz" in
  suffix (candidate dest 7) = suffix dest
  ∧ stem (candidate dest 7) = stem dest +:+ " (" +:+ pretty 7%nat +:+ ")"
  ∧ find_category (file_extension_lower (candidate dest 7)) (Categories config0)
    = find_category (file_extension_lower dest) (Categories config0).
Proof.
  intros dest.
  exact (candidate_keeps_extension dest 7 (Categories config0)
           ltac:(vm_compute; intros H; discriminate H)).
Defined.

(** A name that ends in a dot has no suffix, but its candidates have one. *)
Example candidate_of_trailing_dot :
  suffix ["d"; "a."] = "" ∧ suffix (candidate ["d"; "a."] 1) = ". (1)".
Proof. split; reflexivity. Qed.

(** X13. The path [resolve_name_collision] returns lies in the folder of
    the path it was given, and resolving it again returns it unchanged. *)
Theorem resolve_name_collision_same_folder (m : gmap path node) (dest final : path) :
  resolve_name_collision m dest = Ok final →
  parent final = parent dest ∧ resolve_name_collision m final = Ok final.
Proof. intros H. split; [by eapply resolve_parent|by eapply resolve_stable]. Qed.

Lemma resolve_name_collision_same_folder_witness :
  let dest := downloads0 </> "Images" </> "a.jpg" in
  let final := downloads0 </> "Images" </> "a (1).jpg" in
  parent final = parent dest ∧ resolve_name_collision fs_taken final = Ok final.
Proof.
  intros dest final.
  exact (resolve_name_collision_same_folder fs_taken dest final
           ltac:(vm_compute; reflexivity)).
Defined.

(** X14. [safe_move] never overwrites: however it ends, every entry other
    than the source keeps its node; and when it raises, the source stays
    where it was too. *)
Theorem safe_move_never_overwrites (env : os_env) (src dest : path) (w : world) :
  let r := safe_move env src dest w in
  (∀ p n, p ≠ src → fs w !! p = Some n → fs r.2 !! p = Some n)
  ∧ (∀ e n, r.1 = Raise e → fs w !! src = Some n → fs r.2 !! src = Some n).
Proof.
  intros r. destruct (safe_move env src dest w) as [o w'] eqn:Hs. subst r. simpl. split.
  - intros p n Hne Hp. by eapply safe_move_keeps.
  - intros e n -> Hn. apply safe_move_raise in Hs as (_ & _ & Hk). by apply Hk.
Qed.

(** X15. After a successful [safe_move] of a regular file, every ancestor
    folder of the returned path exists, as a folder. *)
Theorem safe_move_creates_folders (env : os_env) (src dest : path) (sz : Z)
    (w : world) (final : path) (w' : world) (q : path) :
  fs w !! src = Some (File sz) →
  safe_move env src dest w = (Ok final, w') →
  q ∈ prefixes (parent final) → fs w' !! q = Some Dir.
Proof.
  intros Hsrc (m1 & n & Hmk & Hres & Hn & _ & ->)%safe_move_ok Hq. simpl.
  rewrite (resolve_parent _ _ _ Hres) in Hq.
  pose proof (mkdirs_creates _ _ _ _ Hmk Hq) as Hdir.
  apply (mkdir_parents_keeps _ _ _ _ _ Hmk) in Hsrc.
  destruct (resolve_name_collision_cases m1 dest) as (p & Hp & Hfree%path_exists_false & _).
  rewrite Hres in Hp. injection Hp as <-.
  rewrite lookup_insert_ne by (intros ->; congruence).
  rewrite lookup_delete_ne by (intros ->; congruence). done.
Qed.

Lemma safe_move_creates_folders_witness :
  let r := safe_move env_ok (downloads0 </> "b.png")
             (downloads0 </> "Images" </> "LargeFiles" </> "b.png") world0 in
  fs r.2 !! (downloads0 </> "Images" </> "LargeFiles") = Some Dir.
Proof.
  intros r.
  exact (safe_move_creates_folders env_ok (downloads0 </> "b.png")
           (downloads0 </> "Images" </> "LargeFiles" </> "b.png") 629145600 world0
           (downloads0 </> "Images" </> "LargeFiles" </> "b.png") r.2
           (downloads0 </> "Images" </> "LargeFiles")
           ltac:(vm_compute; reflexivity) ltac:(vm_compute; reflexivity)
           ltac:(vm_compute; do 4 right; left)).
Defined.

(** X16. A regular file where the destination folder, or one of its
    ancestors, should be makes [safe_move] raise before anything is moved:
    the world is left as it was. *)
Theorem safe_move_blocked_by_file (env : os_env) (src dest : path) (w : world)
    (q : path) (sz : Z) :
  q ∈ prefixes (parent dest) →
  fs w !! q = Some (File sz) →
  ∃ e, safe_move env src dest w = (Raise e, w).
Proof.
  intros Hq Hfile.
  destruct (mkdirs_blocked _ _ _ _ Hq Hfile) as [e He]. exists e.
  unfold safe_move, mbind, M_bind, on_fs, mkdir_parents. by rewrite He.
Qed.

Lemma safe_move_blocked_by_file_witness :
  ∃ e, safe_move env_ok (downloads0 </> "a.jpg") (downloads0 </> "Images" </> "a.jpg")
         world_blocked = (Raise e, world_blocked).
Proof.
  exact (safe_move_blocked_by_file env_ok (downloads0 </> "a.jpg")
           (downloads0 </> "Images" </> "a.jpg") world_blocked
           (downloads0 </> "Images") 5
           ltac:(vm_compute; do 3 right; left) ltac:(vm_compute; reflexivity)).
Defined.





(** X19. A negative count -k does not select the last records: [lines[k:]]
    is undone and [lines[:k]] is kept, so [undo_actions] makes its pass over
    all but the first k records of the log, most recent first, and leaves
    the first k in the log. *)
Theorem undo_negative_count (env : os_env) (k : Z) (w : world) (lines : list jline) :
  (1 ≤ k)%Z →
  journal w = Some lines → lines ≠ [] →
  let kept := Nat.min (Z.to_nat k) (length lines) in
  ∃ undone m',
    undo_actions env (- k) w
    = (Ok undone, {| fs := m'; journal := Some (take kept lines); clock := clock w |})
    ∧ undo_run env (reverse (drop kept lines)) (fs w) undone m'.
Proof.
  intros Hk Hj Hne kept.
  destruct (undo_actions_run env (- k) w lines Hj Hne) as (undone & m' & Hrun & Hpass).
  assert (Py.slice_bound (length lines) (- - k) = kept) as Hb.
  { unfold Py.slice_bound, kept. destruct (Z.ltb_spec (- - k) 0); lia. }
  unfold Py.slice_to in Hrun. unfold Py.slice_from in Hpass. rewrite Hb in Hrun, Hpass.
  by exists undone, m'.
Qed.

Lemma undo_negative_count_witness :
  (undo_actions env_ok (-1) world_three).1 = Ok 2%nat
  ∧ ∃ undone m',
      undo_actions env_ok (- 1) world_three
      = (Ok undone,
         {| fs := m';
            journal := Some [Entry 0 (downloads0 </> "a.jpg")
                               (downloads0 </> "Images" </> "a.jpg")];
            clock := clock world_three |})
      ∧ undo_run env_ok
          [ Entry 2 (downloads0 </> "c.jpg") (downloads0 </> "Images" </> "c.jpg");
            Entry 1 (downloads0 </> "b.jpg") (downloads0 </> "Images" </> "b.jpg") ]
          (fs world_three) undone m'.
Proof.
  split; [vm_compute; reflexivity|].
  exact (undo_negative_count env_ok 1 world_three
           [ Entry 0 (downloads0 </> "a.jpg") (downloads0 </> "Images" </> "a.jpg");
             Entry 1 (downloads0 </> "b.jpg") (downloads0 </> "Images" </> "b.jpg");
             Entry 2 (downloads0 </> "c.jpg") (downloads0 </> "Images" </> "c.jpg") ]
           ltac:(lia) ltac:(reflexivity) ltac:(discriminate)).
Defined.




(** X22. A non-zero undo count takes [main] to [undo_actions] alone: the
    dry-run flag and the preview limit have no effect, and the world is the
    one [undo_actions] leaves, so `--undo N --dry-run` does undo. *)
Theorem main_undo_ignores_dry_run (env : os_env) (cfg : config) (a : args) (w : world) :
  arg_undo a ≠ 0%Z →
  (∀ dry_run limit, main env cfg (Args dry_run (arg_undo a) limit) w = main env cfg a w)
  ∧ (main env cfg a w).2 = (undo_actions env (arg_undo a) w).2
  ∧ ∃ n, (main env cfg a w).1 = Ok (Undone n) ∧ (undo_actions env (arg_undo a) w).1 = Ok n.
Proof.
  intros Hn. unfold main, mbind, M_bind, mret, M_ret. simpl.
  destruct (Z.eqb_spec (arg_undo a) 0) as [|_]; [done|]. simpl.
  pose proof (undo_actions_returns env (arg_undo a) w) as [n Hok].
  destruct (undo_actions env (arg_undo a) w) as [[k|e|] w1]; simpl in *; [|done..].
  split_and!; [done..|]. by exists k.
Qed.

Lemma main_undo_ignores_dry_run_witness :
  let a := Args true 2 0 in
  (∀ dry_run limit, main env_ok config0 (Args dry_run 2 limit) world_three
                    = main env_ok config0 a world_three)
  ∧ (main env_ok config0 a world_three).2 = (undo_actions env_ok 2 world_three).2
  ∧ ∃ n, (main env_ok config0 a world_three).1 = Ok (Undone n)
         ∧ (undo_actions env_ok 2 world_three).1 = Ok n.
Proof.
  intros a.
  exact (main_undo_ignores_dry_run env_ok config0 a world_three ltac:(discriminate)).
Defined.



(** Why the names matter: the regular file "Images" is moved to Others,
    the folder Images is then created for A.jpg, and undoing both actions
    brings back A.jpg only, because the old path of "Images" is taken. *)
Example namesake_is_not_restored :
  let moved := organize env_ok config0 false None world_namesake in
  let r := undo_actions env_ok 2 moved.2 in
  match moved.1 with Ok s => total s = 2%nat | _ => False end
  ∧ r.1 = Ok 1%nat
  ∧ fs r.2 !! (downloads0 </> "A.jpg") = Some (File 4)
  ∧ fs r.2 !! (downloads0 </> "Images") = Some Dir
  ∧ fs r.2 !! (downloads0 </> "Others" </> "Images") = Some (File 5)
  ∧ journal r.2 = Some [].
Proof. vm_compute. done. Qed.



(** X25. A last line of the log that does not parse uses up an undo:
    [undo_actions] with count 1 reverses nothing, returns 0, and only drops
    that line from the log. *)
Theorem undo_drops_malformed_line (env : os_env) (w : world) (lines : list jline)
    (text : string) :
  journal w = Some (lines ++ [Malformed text]) →
  undo_actions env 1 w
  = (Ok 0%nat, {| fs := fs w; journal := Some lines; clock := clock w |}).
Proof.
  intros Hj.
  destruct (undo_actions_run env 1 w _ Hj ltac:(by destruct lines))
    as (k & m' & -> & Hpass).
  rewrite slice_to_neg by done. rewrite slice_from_neg in Hpass by done.
  assert (length (lines ++ [Malformed text])
          - Nat.min (Z.to_nat 1) (length (lines ++ [Malformed text])) = length lines)%nat
    as Hcut by (rewrite length_app; change (Z.to_nat 1) with 1%nat; cbn [length]; lia).
  rewrite Hcut in *. rewrite take_app_length. rewrite drop_app_length in Hpass.
  assert (undo_run env (reverse [Malformed text]) (fs w) 0 (fs w)) as Hexp.
  { apply undo_run_skipped; [|constructor]. intros; discriminate. }
  by destruct (undo_run_functional _ _ _ _ _ _ _ Hpass Hexp) as [-> ->].
Qed.

Lemma undo_drops_malformed_line_witness :
  let lines := [Entry 0 (downloads0 </> "a.jpg") (downloads0 </> "Images" </> "a.jpg")] in
  let w := World fs_taken (Some (lines ++ [Malformed "{oops"])) 1 in
  undo_actions env_ok 1 w
  = (Ok 0%nat, {| fs := fs w; journal := Some lines; clock := clock w |}).
Proof.
  intros lines w.
  exact (undo_drops_malformed_line env_ok w lines "{oops" ltac:(reflexivity)).
Defined.
